(** * AskMyPDF (app.py): the upload pipeline and the chat-input handler

    A shallow embedding of [app.py]: the Python string operations the
    answer parser is built from, the parser itself, the citation
    rendering, the upload pipeline (read, chunk, validate, embed) and the
    chat-input handler with the session message list. *)

From Stdlib Require Import ZArith NArith QArith Qcanon Ascii String DecimalString.
From stdpp Require Import gmap list sorting.

Local Open Scope Z_scope.

(** ** Python strings

    A Python [str] is a sequence of Unicode code points. *)

Module PyStr.

Definition char : Type := N.
Definition str : Type := list char.

(** An ASCII literal as a [str]. *)
Definition of_string (s : string) : str :=
  map N_of_ascii (list_ascii_of_string s).

Definition NL : char := 10%N.
Definition SP : char := 32%N.

(** [str.isspace] on one code point: the code points CPython's
    [_PyUnicode_IsWhitespace] accepts; [str.strip()] removes these. *)
Definition is_space (c : char) : bool :=
  ((9 <=? c) && (c <=? 13) || (28 <=? c) && (c <=? 32)
   || (c =? 133) || (c =? 160) || (c =? 5760)
   || (8192 <=? c) && (c <=? 8202)
   || (c =? 8232) || (c =? 8233) || (c =? 8239) || (c =? 8287)
   || (c =? 12288))%N.

(** [s.lstrip()], [s.rstrip()], [s.strip()]. *)
Fixpoint lstrip (s : str) : str :=
  match s with
  | c :: t => if is_space c then lstrip t else s
  | [] => []
  end.

Definition rstrip (s : str) : str := rev (lstrip (rev s)).

Definition strip (s : str) : str := rstrip (lstrip s).

(** [s.startswith(p)]. *)
Fixpoint startswith (p s : str) : bool :=
  match p, s with
  | [], _ => true
  | a :: p', b :: s' => (a =? b)%N && startswith p' s'
  | _ :: _, [] => false
  end.

(** [sub in s]. *)
Fixpoint contains (sub s : str) : bool :=
  startswith sub s
  || match s with
     | [] => false
     | _ :: t => contains sub t
     end.

(** [s.replace(old, new)] for a non-empty [old]: scan from the left; at an
    occurrence of [old] emit [new] and jump over the occurrence, otherwise
    copy one character.  [skip] counts the characters of a matched
    occurrence that are still to be jumped over. *)
Fixpoint replace_from (old new : str) (skip : nat) (s : str) : str :=
  match s with
  | [] => []
  | c :: t =>
      match skip with
      | S k => replace_from old new k t
      | O =>
          if startswith old s
          then new ++ replace_from old new (Nat.pred (length old)) t
          else c :: replace_from old new O t
      end
  end.

Definition replace (old new s : str) : str := replace_from old new O s.

(** [s.split(sep)] for a non-empty [sep]: the pieces between the
    occurrences of [sep], found from the left. *)
Fixpoint split_from (sep : str) (skip : nat) (s : str) : list str :=
  match s with
  | [] => [[]]
  | c :: t =>
      match skip with
      | S k => split_from sep k t
      | O =>
          if startswith sep s
          then [] :: split_from sep (Nat.pred (length sep)) t
          else match split_from sep O t with
               | piece :: pieces => (c :: piece) :: pieces
               | [] => [[c]]
               end
      end
  end.

Definition split (sep s : str) : list str := split_from sep O s.

(** [sep.join(l)]. *)
Fixpoint join (sep : str) (l : list str) : str :=
  match l with
  | [] => []
  | [x] => x
  | x :: l' => x ++ sep ++ join sep l'
  end.

(** The decimal numeral of an integer, with a minus sign when negative. *)
Definition decimal (z : Z) : str :=
  of_string (NilZero.string_of_int (Z.to_int z)).

(** A surrogate code point; a text that has one is not well-formed
    Unicode and cannot be encoded in UTF-8. *)
Definition is_surrogate (c : char) : bool :=
  ((55296 <=? c) && (c <=? 57343))%N.

Definition has_surrogate (s : str) : bool := existsb is_surrogate s.

End PyStr.

Import PyStr.

(** ** The answer parser (app.py, lines 117-121) *)

Definition MARKER : str := Eval cbv in of_string "SOURCES:".

(** [l[0]].  On an empty list Python raises IndexError; [str.split] never
    returns one (lemma [split_nonempty]), so that case is not reached. *)
Definition item0 (l : list str) : str := hd [] l.

Definition extract_answer_without_sources (result_answer : str) : str :=
  let normalized_answer :=
    replace (NL :: MARKER) (SP :: MARKER) result_answer in
  let normalized_answer :=
    replace (MARKER ++ [NL]) (MARKER ++ [SP]) normalized_answer in
  let answer := strip (item0 (split MARKER normalized_answer)) in
  answer.

(** The text in front of the first occurrence of [sep]; all of [s] when
    [sep] does not occur. *)
Fixpoint before (sep s : str) : str :=
  match s with
  | [] => []
  | c :: t => if startswith sep s then [] else c :: before sep t
  end.

(** One change of a newline into a space, or no change. *)
Definition nl_to_sp (a b : char) : Prop := a = b \/ (a = NL /\ b = SP).

(** A character that the normalisation never touches. *)
Definition plain (c : char) : Prop := c <> NL /\ c <> SP.

(** Two texts that are equal, or equal up to a final newline against a
    final space. *)
Definition same_up_to_last (p q : str) : Prop :=
  p = q \/ exists r, p = r ++ [NL] /\ q = r ++ [SP].

(** ** Data model *)

(** Exceptions the script can meet: those of the pipeline stages and the
    built-in ones raised by the expressions of [app.py] itself. *)
Inductive exn : Type :=
  | ReadError (reason : str)
  | ConfigError (reason : str)
  | EmbeddingError (reason : str)
  | GenerationError (reason : str)
  | KeyError (key : str)
  | NameError (name : str)
  | TypeError
  | ValueError
  | UnicodeEncodeError (object : str).

(** The result of a call that returns or raises. *)
Definition result (A : Type) : Type := exn + A.

Definition rbind {A B : Type} (r : result A) (k : A -> result B)
  : result B :=
  match r with
  | inl e => inl e
  | inr a => k a
  end.

(** Evaluate [f] on the elements from left to right; the first exception
    ends the evaluation (a comprehension or generator over [l]). *)
Fixpoint rmap {A B : Type} (f : A -> result B) (l : list A)
  : result (list B) :=
  match l with
  | [] => inr []
  | a :: l' =>
      rbind (f a) (fun b => rbind (rmap f l') (fun bs => inr (b :: bs)))
  end.

(** The default of [sys.get_int_max_str_digits()]. *)
Definition INT_MAX_STR_DIGITS : nat := 4300.

(** [str(n)] for an [int]: the decimal numeral; CPython raises ValueError
    for an integer of more than 4300 digits. *)
Definition str_of_int (z : Z) : result str :=
  if (INT_MAX_STR_DIGITS <? length (decimal (Z.abs z)))%nat
  then inl ValueError
  else inr (decimal z).

Inductive role : Type := user | assistant.

(** One entry of [st.session_state['messages']]. *)
Record turn : Type := { turn_role : role; content : str }.

Record UploadedFile : Type := { name : str; data : list N }.

(** What the page shows. *)
Inductive shown : Type :=
  | Info (text : str)
  | FileReadError (e : exn) (shown_file_name : str)
  | ChatMessage (r : role) (text : str).

(** The session message list and the page. *)
Record state : Type := { messages : list turn; screen : list shown }.

(** How a run of the script ends early: [st.stop()] or an exception that
    nothing catches. *)
Inductive halt : Type := Stop | Raise (e : exn).

(** Script fragments: they change the state, and return or halt.  The
    state reached is kept when the fragment halts. *)
Definition M (A : Type) : Type := state -> state * (halt + A).

Definition ret {A : Type} (a : A) : M A := fun s => (s, inr a).

Definition bind {A B : Type} (m : M A) (k : A -> M B) : M B :=
  fun s =>
    match m s with
    | (s', inr a) => k a s'
    | (s', inl h) => (s', inl h)
    end.

Notation "'let*' x ':=' m 'in' k" :=
  (bind m (fun x => k))
  (at level 10, x name, m at level 100, k at level 200).

(** [st.stop()] *)
Definition st_stop {A : Type} : M A := fun s => (s, inl Stop).

(** A call that may raise, where nothing catches. *)
Definition call {A : Type} (r : result A) : M A :=
  fun s =>
    match r with
    | inl e => (s, inl (Raise e))
    | inr a => (s, inr a)
    end.

(** [w] is put on the page.  Used for the notices of the script and of
    its helpers, and for the text that [st.chat_input] delivered, which
    is well-formed and has no surrogate. *)
Definition show (w : shown) : M unit :=
  fun s => ({| messages := messages s; screen := screen s ++ [w] |}, inr tt).

(** [st.session_state['messages'].append(t)] *)
Definition append_message (t : turn) : M unit :=
  fun s => ({| messages := messages s ++ [t]; screen := screen s |}, inr tt).

(** [st.chat_message(r).write(text)]: the text goes to the page, unless
    it has a surrogate; then it cannot be encoded for the browser,
    UnicodeEncodeError is raised and nothing is shown. *)
Definition st_write (r : role) (text : str) : M unit :=
  if has_surrogate text
  then call (inl (UnicodeEncodeError text))
  else show (ChatMessage r text).

Section Script.

(** Values stored in chunk metadata, and the built-in [int] on them. *)
Variable pyval : Type.
Variable py_int : pyval -> result Z.

(** A chunk, or a page of a parsed file. *)
Record Document : Type :=
  { page_content : str; metadata : gmap str pyval }.

Record File : Type := { file_name : str; docs : list Document }.

(** What [query_folder] returns. *)
Record AnswerWithSources : Type :=
  { answer : str; sources : list Document }.

(** *** The imported functions ([ui] and [core]) *)

Variable FolderIndex : Type.
Variable LLM : Type.

Variable read_file : UploadedFile -> result File.
Variable display_file_read_error : exn -> str -> M unit.
Variable chunk_file : File -> Z -> Z -> result File.
Variable is_file_valid : File -> bool.
Variable is_open_ai_key_valid : str -> str -> bool.
Variable embed_files : list File -> str -> str -> str -> result FolderIndex.
Variable get_llm : str -> str -> Qc -> result LLM.
Variable query_folder :
  FolderIndex -> str -> bool -> LLM -> result AnswerWithSources.

(** ** Constants (app.py, lines 17-19) *)

Definition EMBEDDING : str := Eval cbv in of_string "openai".
Definition VECTOR_STORE : str := Eval cbv in of_string "faiss".
Definition MODEL_LIST : list str :=
  Eval cbv in
    map of_string ["gpt-4o"; "gpt-4-turbo"; "gpt-4"; "gpt-3.5-turbo"]%string.
Definition DEBUG : str := Eval cbv in of_string "debug".

(** [VALUE if model != "debug" else "debug"] (lines 83 and 84). *)
Definition kind_for (value model : str) : str :=
  if decide (model <> DEBUG) then value else DEBUG.

(** ** The upload pipeline (app.py, lines 60-86) *)

(** The loop of lines 65-70.  [files] is the list being built; [file] is
    the script variable of that name, unbound until a read succeeds. *)
Fixpoint read_loop (uploaded_files : list UploadedFile)
    (files : list File) (file : option File)
  : M (list File * option File) :=
  match uploaded_files with
  | [] => ret (files, file)
  | uploaded_file :: rest =>
      match read_file uploaded_file with
      | inr f => read_loop rest (files ++ [f]) (Some f)
      | inl e =>
          let* _ := display_file_read_error e (name uploaded_file) in
          read_loop rest files file
      end
  end.

(** Reading a script variable. *)
Definition variable {A : Type} (v : option A) (its_name : str) : M A :=
  match v with
  | Some a => ret a
  | None => call (inl (NameError its_name))
  end.

(** Lines 60-86.  The comprehension of line 72 has its own variable
    [file]; the [file] that line 74 reads is the one the loop left. *)
Definition upload_pipeline (uploaded_files : list UploadedFile)
    (model openai_api_key : str) : M FolderIndex :=
  match uploaded_files with
  | [] =>
      let* _ := show (Info (of_string "Upload a file to get started.")) in
      st_stop
  | _ :: _ =>
      let* read := read_loop uploaded_files [] None in
      let files := fst read in
      let* chunked_files :=
        call (rmap (fun file => chunk_file file 300 0) files) in
      let* file := variable (snd read) (of_string "file") in
      if negb (is_file_valid file) then st_stop
      else if negb (is_open_ai_key_valid openai_api_key model) then st_stop
      else
        call (embed_files chunked_files
                (kind_for EMBEDDING model)
                (kind_for VECTOR_STORE model)
                openai_api_key)
  end.

(** ** The chat-input handler (app.py, lines 123-150) *)

(** [d[key]] *)
Definition getitem (d : gmap str pyval) (key : str) : result pyval :=
  match d !! key with
  | Some v => inr v
  | None => inl (KeyError key)
  end.

(** [sorted(X)] for a set of integers. *)
Definition sorted (X : gset Z) : list Z := merge_sort Z.le (elements X).

(** Line 137. *)
Definition citation_pages (res : AnswerWithSources) : result (list Z) :=
  rbind
    (rmap (fun source =>
             rbind (getitem (metadata source) (of_string "page")) py_int)
       (sources res))
    (fun ints => inr (sorted (list_to_set ints))).

(** Line 138. *)
Definition citation_string (pages : list Z) : result str :=
  rbind (rmap str_of_int pages)
    (fun numerals => inr (join (of_string ", ") numerals)).

Definition INDENT : str := Eval cbv in of_string "        ".
Definition DQUOTE : char := 34%N.

(** The f-string of lines 140-144. *)
Definition answer_with_citations (result_answer sources : str) : str :=
  [NL] ++ INDENT ++ result_answer ++ [NL]
  ++ INDENT ++ [NL]
  ++ INDENT
  ++ of_string "<span style=" ++ [DQUOTE]
  ++ of_string "color:grey; font-size: small; font-style: italic;"
  ++ [DQUOTE]
  ++ of_string ">The information was found on the following pages: "
  ++ sources ++ of_string ".</span>" ++ [NL]
  ++ INDENT.

(** Lines 139-146. *)
Definition assemble_answer (res : AnswerWithSources) (sources : str)
  : str :=
  match sources with
  | _ :: _ => answer_with_citations (answer res) sources
  | [] => extract_answer_without_sources (answer res)
  end.

Definition TEMPERATURE : Qc := Q2Qc (2 # 10).

(** [chat_input] is what [st.chat_input] returned: [None] or the text
    typed; the walrus test of line 123 passes on a non-empty text. *)
Definition chat_input_handler (folder_index : FolderIndex)
    (model openai_api_key : str) (return_all_chunks : bool)
    (chat_input : option str) : M unit :=
  match chat_input with
  | Some ((_ :: _) as query) =>
      let* _ := append_message {| turn_role := user; content := query |} in
      let* _ := show (ChatMessage user query) in
      let* llm := call (get_llm model openai_api_key TEMPERATURE) in
      let* res :=
        call (query_folder folder_index query return_all_chunks llm) in
      let* pages := call (citation_pages res) in
      let* sources := call (citation_string pages) in
      let answer := assemble_answer res sources in
      let* _ :=
        append_message {| turn_role := assistant; content := answer |} in
      st_write assistant answer
  | _ => ret tt
  end.

(** ** Notions used to state the properties *)

(** The page of [source] coerces to the integer [z]. *)
Definition page_of (source : Document) (z : Z) : Prop :=
  exists v, metadata source !! of_string "page" = Some v /\ py_int v = inr z.

(** Every step of the handler before the answer is committed succeeds
    on [query], and [reply] is the answer assembled. *)
Definition steps_succeed_with (folder_index : FolderIndex)
    (model openai_api_key : str) (return_all_chunks : bool)
    (query reply : str) : Prop :=
  exists llm res pages citation,
    get_llm model openai_api_key TEMPERATURE = inr llm
    /\ query_folder folder_index query return_all_chunks llm = inr res
    /\ citation_pages res = inr pages
    /\ citation_string pages = inr citation
    /\ reply = assemble_answer res citation.

(** The uploaded files that [read_file] reads, in upload order. *)
Definition read_ok (uploaded_files : list UploadedFile) : list File :=
  omap (fun uploaded_file =>
          match read_file uploaded_file with
          | inr f => Some f
          | inl _ => None
          end) uploaded_files.

(** The number of characters of text extracted from a file. *)
Definition text_length (file : File) : nat :=
  list_sum (map (fun doc => length (page_content doc)) (docs file)).

End Script.

Arguments page_content {pyval} _.
Arguments metadata {pyval} _.
Arguments Build_Document {pyval} _ _.
Arguments file_name {pyval} _.
Arguments docs {pyval} _.
Arguments Build_File {pyval} _ _.
Arguments answer {pyval} _.
Arguments sources {pyval} _.
Arguments Build_AnswerWithSources {pyval} _ _.
Arguments read_loop {pyval} _ _ _ _ _.
Arguments upload_pipeline {pyval FolderIndex} _ _ _ _ _ _ _ _ _.
Arguments getitem {pyval} _ _.
Arguments citation_pages {pyval} _ _.
Arguments assemble_answer {pyval} _ _.
Arguments chat_input_handler {pyval} _ {FolderIndex LLM} _ _ _ _ _ _ _.
Arguments page_of {pyval} _ _ _.
Arguments steps_succeed_with {pyval} _ {FolderIndex LLM} _ _ _ _ _ _ _ _.
Arguments read_ok {pyval} _ _.
Arguments text_length {pyval} _.

(** The state once the user's question is committed and shown. *)
Definition asked (query : str) (s : state) : state :=
  {| messages := messages s ++ [ {| turn_role := user; content := query |} ];
     screen := screen s ++ [ChatMessage user query] |}.

(** The state once the assistant's answer is committed but not shown. *)
Definition committed_unshown (query answer : str) (s : state) : state :=
  {| messages :=
       messages s ++ [ {| turn_role := user; content := query |};
                       {| turn_role := assistant; content := answer |} ];
     screen := screen s ++ [ChatMessage user query] |}.

(** The state once the assistant's answer is committed and shown too. *)
Definition answered (query answer : str) (s : state) : state :=
  {| messages :=
       messages s ++ [ {| turn_role := user; content := query |};
                       {| turn_role := assistant; content := answer |} ];
     screen :=
       screen s ++ [ChatMessage user query; ChatMessage assistant answer] |}.

(** ** The collaborators that are not part of [app.py] *)

Module SpecModel.

(** Modelled from the spec: [ui.display_file_read_error] is missing.  A
    ReadError is terminal for the current operation and is surfaced with
    the offending file name: the message is shown and the run stops. *)
Definition display_file_read_error (e : exn) (file_name : str) : M unit :=
  let* _ := show (FileReadError e file_name) in
  st_stop.

(** Modelled from the spec: [ui.is_file_valid] is missing.  It rejects
    documents whose total extracted text length is zero. *)
Definition is_file_valid {pyval : Type} (file : File pyval) : bool :=
  negb (text_length file =? 0)%nat.

End SpecModel.

(** ** Worked inputs *)

Module Demo.

(** A reader for the worked inputs.  The data of an upload stands for the
    text that can be extracted from it, all on page 1; a name that ends
    in neither .txt nor .pdf is refused. *)
Definition read_file (uploaded_file : UploadedFile) : result (File Z) :=
  if startswith (rev (of_string ".txt")) (rev (name uploaded_file))
     || startswith (rev (of_string ".pdf")) (rev (name uploaded_file))
  then inr {| file_name := name uploaded_file;
              docs := [ {| page_content := data uploaded_file;
                           metadata := {[ of_string "page" := 1 ]} |} ] |}
  else inl (ReadError (of_string "unsupported file type")).

(** Consecutive windows of [size] characters, each starting [stride]
    characters after the one before; the last may be shorter. *)
Fixpoint windows (fuel size stride : nat) (text : str) : list str :=
  match fuel, text with
  | S fuel', _ :: _ =>
      take size text
      :: (if (length text <=? size)%nat then []
          else windows fuel' size stride (drop stride text))
  | _, _ => []
  end.

(** A chunker for the worked inputs: each page is cut into windows of
    [chunk_size] characters with stride [chunk_size - chunk_overlap], and
    each chunk keeps the metadata of its page. *)
Definition chunk_file (file : File Z) (chunk_size chunk_overlap : Z)
  : result (File Z) :=
  if (0 <=? chunk_overlap) && (chunk_overlap <? chunk_size)
  then inr {| file_name := file_name file;
              docs :=
                flat_map
                  (fun doc =>
                     map (fun w => {| page_content := w;
                                      metadata := metadata doc |})
                       (windows (length (page_content doc))
                          (Z.to_nat chunk_size)
                          (Z.to_nat (chunk_size - chunk_overlap))
                          (page_content doc)))
                  (docs file) |}
  else inl (ConfigError (of_string "chunk_overlap")).

(** An index that records what it was built from. *)
Definition FolderIndex : Type := list (File Z) * str * str.

Definition embed_files (files : list (File Z))
    (embedding vector_store openai_api_key : str) : result FolderIndex :=
  inr (files, embedding, vector_store).

Definition is_open_ai_key_valid (openai_api_key model : str) : bool :=
  match openai_api_key with [] => false | _ => true end.

Definition get_llm (model openai_api_key : str) (temperature : Qc)
  : result unit :=
  inr tt.

(** A query engine that answers every question with [outcome]. *)
Definition query_folder (outcome : result (AnswerWithSources Z))
    (folder_index : FolderIndex) (query : str) (return_all : bool)
    (llm : unit) : result (AnswerWithSources Z) :=
  outcome.

Definition chunk_on_page (page : Z) : Document Z :=
  {| page_content := of_string "text";
     metadata := {[ of_string "page" := page ]} |}.

(** A chunk whose metadata has no page. *)
Definition chunk_without_page : Document Z :=
  {| page_content := of_string "text"; metadata := ∅ |}.

(** A scanned document: nothing can be extracted from it. *)
Definition scan_pdf : UploadedFile :=
  {| name := of_string "scan.pdf"; data := [] |}.
Definition notes_txt : UploadedFile :=
  {| name := of_string "notes.txt"; data := of_string "The cat sat." |}.
Definition photo_png : UploadedFile :=
  {| name := of_string "photo.png"; data := [137; 80; 78; 71]%N |}.

Definition KEY : str := Eval cbv in of_string "sk-test".
Definition GPT4 : str := Eval cbv in of_string "gpt-4".

Definition start : state :=
  {| messages :=
       [ {| turn_role := assistant; content := of_string "Hello!" |} ];
     screen := [] |}.

Definition index : FolderIndex := ([], EMBEDDING, VECTOR_STORE).

(** What reading the worked inputs gives. *)
Definition scan_file : File Z :=
  {| file_name := of_string "scan.pdf";
     docs := [ {| page_content := [];
                  metadata := {[ of_string "page" := 1 ]} |} ] |}.
Definition notes_file : File Z :=
  {| file_name := of_string "notes.txt";
     docs := [ {| page_content := of_string "The cat sat.";
                  metadata := {[ of_string "page" := 1 ]} |} ] |}.

(** Query results. *)
Definition four_pages : AnswerWithSources Z :=
  {| answer := of_string "Yes.";
     sources := map chunk_on_page [3; 1; 3; 2] |}.
Definition cited : AnswerWithSources Z :=
  {| answer := of_string "Yes. SOURCES: doc.pdf page 1";
     sources := [chunk_on_page 1] |}.
Definition uncited : AnswerWithSources Z :=
  {| answer :=
       of_string "The cat sat." ++ NL :: of_string "SOURCES:"
       ++ NL :: of_string "doc.pdf page 1";
     sources := [] |}.
Definition broken : AnswerWithSources Z :=
  {| answer := of_string "Yes.";
     sources := [chunk_on_page 3; chunk_without_page] |}.

Definition WHY : str := Eval cbv in of_string "Why?".

(** The pipeline on the worked collaborators. *)
Definition upload (uploaded_files : list UploadedFile) : M FolderIndex :=
  upload_pipeline read_file SpecModel.display_file_read_error chunk_file
    SpecModel.is_file_valid is_open_ai_key_valid embed_files
    uploaded_files GPT4 KEY.

(** The handler on the question "Why?" with a query engine that gives
    [outcome]. *)
Definition ask (outcome : result (AnswerWithSources Z)) : M unit :=
  chat_input_handler inr get_llm (query_folder outcome) index GPT4 KEY
    false (Some WHY).

End Demo.

(** ** The start of the chat (app.py, lines 94-115) *)

(** What [st.session_state] holds under a key: a list of messages (the
    empty list stored under "history" is one), or something else. *)
Inductive session_value : Type :=
  | Turns (l : list turn)
  | Other (v : N).

Definition MESSAGES : str := Eval cbv in of_string "messages".
Definition HISTORY : str := Eval cbv in of_string "history".

Definition INITIAL_MESSAGE : list turn :=
  [ {| turn_role := assistant;
       content :=
         of_string
           "Hello! I'm here to assist with any questions you have about the uploaded documents. How can I help you today?" |} ].

(** Lines 103-106, run when the reset button was pressed: every key of the
    session is deleted, then the two keys are set. *)
Definition reset_chat (session : gmap str session_value)
  : gmap str session_value :=
  let cleared := foldr delete session (elements (dom session)) in
  <[HISTORY := Turns []]> (<[MESSAGES := Turns INITIAL_MESSAGE]> cleared).

(** Lines 108-109. *)
Definition ensure_messages (session : gmap str session_value)
  : gmap str session_value :=
  match session !! MESSAGES with
  | Some _ => session
  | None => <[MESSAGES := Turns INITIAL_MESSAGE]> session
  end.

(** [st.session_state['messages']], read as a list of messages. *)
Definition messages_of (session : gmap str session_value)
  : result (list turn) :=
  match session !! MESSAGES with
  | Some (Turns l) => inr l
  | Some (Other _) => inl TypeError
  | None => inl (KeyError MESSAGES)
  end.

(** What lines 112-115 put on the page for a message: a message of the
    user is shown as the user's, any other as the assistant's. *)
Definition bubble (message : turn) : shown :=
  match turn_role message with
  | user => ChatMessage user (content message)
  | assistant => ChatMessage assistant (content message)
  end.

(** The loop of lines 111-115; a message that cannot be written ends
    it. *)
Fixpoint replay (l : list turn) : M unit :=
  match l with
  | [] => ret tt
  | message :: rest =>
      let* _ :=
        match turn_role message with
        | user => st_write user (content message)
        | assistant => st_write assistant (content message)
        end in
      replay rest
  end.

(** ** The whole chat block (app.py, lines 101-162) *)

Section Chat.

(** Metadata values, the built-in [int] on them, and the text of a value
    as [st.markdown] shows it. *)
Variable pyval : Type.
Variable py_int : pyval -> result Z.
Variable py_str : pyval -> str.
Variable FolderIndex : Type.
Variable LLM : Type.
Variable get_llm : str -> str -> Qc -> result LLM.
Variable query_folder :
  FolderIndex -> str -> bool -> LLM -> result (AnswerWithSources pyval).

(** What the "Sources" expander of the sidebar shows. *)
Inductive sidebar_item : Type :=
  | Markdown (text : str)
  | MarkdownValue (v : pyval)
  | EncodingError (e : exn).

(** [s.encode('utf-8', 'ignore').decode('utf-8')]: the code points that
    UTF-8 cannot encode, the surrogates, are left out. *)
Definition utf8_ignore (s : str) : str :=
  filter (fun c => is_surrogate c = false) s.

Definition RULE : str := Eval cbv in of_string "---".
Definition SOURCE : str := Eval cbv in of_string "source".

(** [st.markdown] of a text or of a metadata value: what is shown, or
    the UnicodeEncodeError raised when the text has a surrogate. *)
Definition st_markdown (text : str) : result sidebar_item :=
  if has_surrogate text then inl (UnicodeEncodeError text)
  else inr (Markdown text).

Definition st_markdown_value (v : pyval) : result sidebar_item :=
  if has_surrogate (py_str v) then inl (UnicodeEncodeError (py_str v))
  else inr (MarkdownValue v).

(** The [try] of lines 156-161 for one source: what it shows and how it
    ends.  A UnicodeEncodeError is caught and shown with [st.error]
    (item [EncodingError]); a missing "source" key is a KeyError, which
    the [except] clause does not catch. *)
Definition source_try (source : Document pyval)
  : list sidebar_item * result unit :=
  let clean_content := utf8_ignore (page_content source) in
  match st_markdown clean_content with
  | inl e => ([EncodingError e], inr tt)
  | inr content_shown =>
      match getitem (metadata source) SOURCE with
      | inl e => ([content_shown], inl e)
      | inr v =>
          match st_markdown_value v with
          | inl e => ([content_shown; EncodingError e], inr tt)
          | inr label_shown => ([content_shown; label_shown], inr tt)
          end
      end
  end.

(** The loop of lines 155-162: what is shown, and how the loop ends. *)
Fixpoint sources_sidebar (srcs : list (Document pyval))
  : list sidebar_item * result unit :=
  match srcs with
  | [] => ([], inr tt)
  | source :: rest =>
      match source_try source with
      | (items, inl e) => (items, inl e)
      | (items, inr _) =>
          let shown_rest := sources_sidebar rest in
          (items ++ Markdown RULE :: fst shown_rest, snd shown_rest)
      end
  end.

(** Lines 124-150, for the question [query]; the value is [result]. *)
Definition answer_question (folder_index : FolderIndex)
    (model openai_api_key : str) (return_all_chunks : bool) (query : str)
  : M (AnswerWithSources pyval) :=
  let* _ := append_message {| turn_role := user; content := query |} in
  let* _ := show (ChatMessage user query) in
  let* llm := call (get_llm model openai_api_key TEMPERATURE) in
  let* res :=
    call (query_folder folder_index query return_all_chunks llm) in
  let* pages := call (citation_pages py_int res) in
  let* sources := call (citation_string pages) in
  let answer := assemble_answer res sources in
  let* _ :=
    append_message {| turn_role := assistant; content := answer |} in
  let* _ := st_write assistant answer in
  ret res.

(** Lines 123-162: the handler and then the sidebar.  The result is the
    state, what the sidebar shows, and how the block ends. *)
Definition chat_input_block (folder_index : FolderIndex)
    (model openai_api_key : str) (return_all_chunks : bool)
    (chat_input : option str) (s : state)
  : state * list sidebar_item * (halt + unit) :=
  match chat_input with
  | Some ((_ :: _) as query) =>
      match answer_question folder_index model openai_api_key
              return_all_chunks query s with
      | (s', inl h) => (s', [], inl h)
      | (s', inr res) =>
          let sidebar := sources_sidebar (sources res) in
          (s', fst sidebar,
           match snd sidebar with
           | inl e => inl (Raise e)
           | inr _ => inr tt
           end)
      end
  | _ => (s, [], inr tt)
  end.

(** Lines 101-162 on the session.  The list under "messages" is the one
    the handler appends to. *)
Definition chat_section (reset_clicked : bool)
    (folder_index : FolderIndex) (model openai_api_key : str)
    (return_all_chunks : bool) (chat_input : option str)
    (session : gmap str session_value)
  : gmap str session_value * list shown * list sidebar_item
    * (halt + unit) :=
  let session := if reset_clicked then reset_chat session else session in
  let session := ensure_messages session in
  match messages_of session with
  | inl e => (session, [], [], inl (Raise e))
  | inr l =>
      match replay l {| messages := l; screen := [] |} with
      | (s, inl h) => (<[MESSAGES := Turns (messages s)]> session,
                       screen s, [], inl h)
      | (s, inr _) =>
          match chat_input_block folder_index model openai_api_key
                  return_all_chunks chat_input s with
          | (s', sidebar, outcome) =>
              (<[MESSAGES := Turns (messages s')]> session,
               screen s', sidebar, outcome)
          end
      end
  end.

End Chat.

Arguments Markdown {pyval} _.
Arguments MarkdownValue {pyval} _.
Arguments EncodingError {pyval} _.
Arguments st_markdown {pyval} _.
Arguments st_markdown_value {pyval} _ _.
Arguments source_try {pyval} _ _.
Arguments sources_sidebar {pyval} _ _.
Arguments answer_question {pyval} _ {FolderIndex LLM} _ _ _ _ _ _ _.
Arguments chat_input_block {pyval} _ _ {FolderIndex LLM} _ _ _ _ _ _ _ _.
Arguments chat_section {pyval} _ _ {FolderIndex LLM} _ _ _ _ _ _ _ _ _.

(** What the sidebar shows for a source whose "source" entry is [v]:
    the content, the entry or, when the entry cannot be encoded, the
    error, and a rule. *)
Definition source_entry {pyval : Type} (py_str : pyval -> str)
    (source : Document pyval) (v : pyval) : list (sidebar_item pyval) :=
  [Markdown (utf8_ignore (page_content source));
   (if has_surrogate (py_str v)
    then EncodingError (UnicodeEncodeError (py_str v))
    else MarkdownValue v);
   Markdown RULE].

(** Further worked inputs. *)
Module Demo2.

(** A chunk with a page and a source label. *)
Definition labelled_chunk (page label : Z) : Document Z :=
  {| page_content := of_string "text";
     metadata :=
       {[ of_string "page" := page; of_string "source" := label ]} |}.

Definition labelled : AnswerWithSources Z :=
  {| answer := of_string "Yes.";
     sources := [labelled_chunk 2 20; Demo.chunk_on_page 1] |}.

(** A display of read errors that returns. *)
Definition display_and_return (e : exn) (file_name : str) : M unit :=
  show (FileReadError e file_name).

Definition chunk_fails (file : File Z) (chunk_size chunk_overlap : Z)
  : result (File Z) :=
  inl (ConfigError (of_string "chunker")).

Definition old_session : gmap str session_value :=
  {[ MESSAGES :=
       Turns [ {| turn_role := assistant; content := of_string "Hi" |};
               {| turn_role := user; content := of_string "Q" |} ];
     of_string "widget" := Other 7%N ]}.

Definition three_pages : AnswerWithSources Z :=
  {| answer := of_string "No.";
     sources := map Demo.chunk_on_page [1; 2; 3] |}.

(** A lone surrogate, U+D800. *)
Definition LONE : char := 55296%N.

(** An answer with a lone surrogate and no sources. *)
Definition garbled : AnswerWithSources Z :=
  {| answer := of_string "No" ++ [LONE]; sources := [] |}.

(** A source whose page number has 4301 digits. *)
Definition huge_page : AnswerWithSources Z :=
  {| answer := of_string "No.";
     sources := [Demo.chunk_on_page (10 ^ 4300)] |}.

(** The text of a label; label 13 stands for a file name with a lone
    surrogate. *)
Definition label_text (label : Z) : str :=
  if label =? 13 then of_string "scan" ++ [LONE] else decimal label.

(** A session that stores a message with a lone surrogate. *)
Definition garbled_session : gmap str session_value :=
  {[ MESSAGES :=
       Turns [ {| turn_role := assistant; content := of_string "Hi" |};
               {| turn_role := assistant; content := [LONE] |};
               {| turn_role := user; content := of_string "Q" |} ] ]}.

End Demo2.

(** ** Facts about the string operations *)

Lemma startswith_app (p r : str) : startswith p (p ++ r) = true.
Proof.
  induction p as [|a p IH]; simpl; [done|].
  by rewrite N.eqb_refl.
Qed.

Lemma startswith_inv (p s : str) :
  startswith p s = true -> s = p ++ drop (length p) s.
Proof.
  revert s. induction p as [|a p IH]; intros [|b s]; simpl; try done.
  intros [Hab Hp]%andb_prop. apply N.eqb_eq in Hab as ->.
  f_equal. by apply IH.
Qed.

Lemma startswith_app_l (p s r : str) :
  startswith p s = true -> startswith p (s ++ r) = true.
Proof.
  intros H. rewrite (startswith_inv _ _ H), <- app_assoc.
  apply startswith_app.
Qed.

Lemma startswith_nil_r (p : str) : p <> [] -> startswith p [] = false.
Proof. by destruct p. Qed.

Lemma replace_from_drop (old new : str) (k : nat) (s : str) :
  replace_from old new k s = replace old new (drop k s).
Proof.
  revert k. induction s as [|c t IH]; intros [|k]; try done.
  simpl. apply IH.
Qed.

Lemma replace_hit (old new r : str) :
  old <> [] -> replace old new (old ++ r) = new ++ replace old new r.
Proof.
  destruct old as [|o old']; [done|]. intros _.
  unfold replace at 1. change ((o :: old') ++ r) with (o :: (old' ++ r)).
  cbn [replace_from]. 
  change (o :: (old' ++ r)) with ((o :: old') ++ r).
  rewrite startswith_app. f_equal.
  rewrite replace_from_drop. cbn [length Nat.pred].
  by rewrite drop_app_length.
Qed.

Lemma replace_miss (old new : str) (c : char) (t : str) :
  startswith old (c :: t) = false ->
  replace old new (c :: t) = c :: replace old new t.
Proof. intros H. unfold replace. cbn [replace_from]. by rewrite H. Qed.

(** Case analysis following the scan of [replace]. *)
Lemma replace_cases (old new : str) (P : str -> str -> Prop) :
  old <> [] ->
  P [] [] ->
  (forall r, P r (replace old new r) ->
             P (old ++ r) (new ++ replace old new r)) ->
  (forall c t, startswith old (c :: t) = false ->
               P t (replace old new t) ->
               P (c :: t) (c :: replace old new t)) ->
  forall s, P s (replace old new s).
Proof.
  intros Hold Hnil Hhit Hmiss s.
  remember (length s) as n eqn:Hn.
  revert s Hn. induction (lt_wf n) as [n _ IH]. intros s ->.
  destruct s as [|c t]; [exact Hnil|].
  destruct (startswith old (c :: t)) eqn:Hsw.
  - rewrite (startswith_inv _ _ Hsw), replace_hit by done.
    apply Hhit. eapply IH; [|done].
    rewrite length_drop. destruct old; [done|]. simpl. lia.
  - rewrite replace_miss by done. apply Hmiss; [done|].
    eapply IH; [|done]. simpl. lia.
Qed.

Lemma replace_nl_to_sp (old new s : str) :
  old <> [] -> Forall2 nl_to_sp old new ->
  Forall2 nl_to_sp s (replace old new s).
Proof.
  intros Hold Hon. apply replace_cases; [done|constructor|..].
  - intros r IH. by apply Forall2_app.
  - intros c t _ IH. constructor; [by left|done].
Qed.

Lemma startswith_nl_to_sp (p x y : str) :
  Forall plain p -> Forall2 nl_to_sp x y ->
  startswith p x = startswith p y.
Proof.
  intros Hp. revert x y. induction Hp as [|a p [Ha1 Ha2] _ IH];
    intros x y Hxy; [done|].
  destruct Hxy as [|b b' x y Hb Hxy]; [done|]. simpl.
  rewrite (IH _ _ Hxy). f_equal.
  destruct Hb as [->|[-> ->]]; [done|].
  transitivity false; [|symmetry]; by apply N.eqb_neq.
Qed.

Lemma MARKER_plain : Forall plain MARKER.
Proof. unfold MARKER. repeat constructor; done. Qed.

Lemma MARKER_not_nil : MARKER <> [].
Proof. done. Qed.

Lemma before_cons (sep : str) (c : char) (t : str) :
  before sep (c :: t) =
  if startswith sep (c :: t) then [] else c :: before sep t.
Proof. done. Qed.

Lemma before_hit (sep r : str) : sep <> [] -> before sep (sep ++ r) = [].
Proof.
  destruct sep as [|a sep]; [done|]. intros _.
  change ((a :: sep) ++ r) with (a :: (sep ++ r)). rewrite before_cons.
  change (a :: (sep ++ r)) with ((a :: sep) ++ r).
  by rewrite startswith_app.
Qed.

Lemma split_head (sep s : str) : item0 (split sep s) = before sep s.
Proof.
  unfold item0, split. induction s as [|c t IH]; [done|].
  cbn [split_from before]. destruct (startswith sep (c :: t)); [done|].
  rewrite <- IH. by destruct (split_from sep 0 t).
Qed.

Lemma split_nonempty (sep s : str) : split sep s <> [].
Proof.
  unfold split. destruct s as [|c t]; [done|]. cbn [split_from].
  destruct (startswith sep (c :: t)); [done|].
  by destruct (split_from sep 0 t).
Qed.

(** *** Normalisation and the text before the marker *)

Lemma before_replace_after :
  forall s, before MARKER (replace (MARKER ++ [NL]) (MARKER ++ [SP]) s)
            = before MARKER s.
Proof.
  apply (replace_cases _ _ (fun s r => before MARKER r = before MARKER s)).
  - done.
  - done.
  - intros r _. rewrite <- !app_assoc. by rewrite !before_hit.
  - intros c t _ IH. rewrite !before_cons, IH.
    rewrite (startswith_nl_to_sp MARKER (c :: t)
               (c :: replace (MARKER ++ [NL]) (MARKER ++ [SP]) t)); [done|..].
    + apply MARKER_plain.
    + constructor; [by left|]. apply replace_nl_to_sp; [done|].
      apply Forall2_app; [|repeat constructor; by right].
      apply Forall2_same_length_lookup_2; [done|]. intros i a b ? ?. left. congruence.
Qed.

Lemma same_up_to_last_cons (c : char) (p q : str) :
  same_up_to_last p q -> same_up_to_last (c :: p) (c :: q).
Proof.
  intros [->|(r & -> & ->)]; [by left|]. right. by exists (c :: r).
Qed.

Lemma before_replace_before :
  forall s, same_up_to_last
              (before MARKER s)
              (before MARKER (replace (NL :: MARKER) (SP :: MARKER) s)).
Proof.
  apply (replace_cases _ _
           (fun s r => same_up_to_last (before MARKER s) (before MARKER r))).
  - done.
  - by left.
  - intros r _. right. exists [].
    change ((NL :: MARKER) ++ r) with (NL :: (MARKER ++ r)).
    change ((SP :: MARKER) ++ replace (NL :: MARKER) (SP :: MARKER) r)
      with (SP :: (MARKER ++ replace (NL :: MARKER) (SP :: MARKER) r)).
    rewrite !before_cons, !before_hit by done. done.
  - intros c t _ IH. rewrite !before_cons.
    rewrite <- (startswith_nl_to_sp MARKER (c :: t)
               (c :: replace (NL :: MARKER) (SP :: MARKER) t)).
    + destruct (startswith MARKER (c :: t)); [by left|].
      by apply same_up_to_last_cons.
    + apply MARKER_plain.
    + constructor; [by left|]. apply replace_nl_to_sp; [done|].
      constructor; [by right|].
      apply Forall2_same_length_lookup_2; [done|]. intros i a b ? ?. left. congruence.
Qed.

(** *** [strip] *)

Lemma lstrip_app_space (q : str) (w : char) :
  is_space w = true ->
  lstrip (q ++ [w]) = match lstrip q with [] => [] | l => l ++ [w] end.
Proof.
  intros Hw. induction q as [|c q IH]; simpl.
  - by rewrite Hw.
  - destruct (is_space c) eqn:Hc; [done|]. done.
Qed.

Lemma rstrip_app_space (q : str) (w : char) :
  is_space w = true -> rstrip (q ++ [w]) = rstrip q.
Proof.
  intros Hw. unfold rstrip. rewrite rev_app_distr. simpl. by rewrite Hw.
Qed.

Lemma strip_app_space (q : str) (w : char) :
  is_space w = true -> strip (q ++ [w]) = strip q.
Proof.
  intros Hw. unfold strip. rewrite lstrip_app_space by done.
  destruct (lstrip q) as [|c l] eqn:Hq; [done|].
  by rewrite rstrip_app_space.
Qed.

Lemma strip_same_up_to_last (p q : str) :
  same_up_to_last p q -> strip p = strip q.
Proof.
  intros [->|(r & -> & ->)]; [done|]. by rewrite !strip_app_space.
Qed.

(** The parser returns the trimmed text in front of the first marker. *)
Lemma extract_before (s : str) :
  extract_answer_without_sources s = strip (before MARKER s).
Proof.
  unfold extract_answer_without_sources.
  rewrite split_head, before_replace_after.
  symmetry. apply strip_same_up_to_last, before_replace_before.
Qed.

(** *** Texts without the marker *)

Lemma contains_cons (sub : str) (c : char) (t : str) :
  contains sub (c :: t) = startswith sub (c :: t) || contains sub t.
Proof. done. Qed.

Lemma contains_unfold (sub s : str) :
  contains sub s
  = startswith sub s
    || match s with [] => false | _ :: t => contains sub t end.
Proof. by destruct s. Qed.

Lemma contains_hit (sub r : str) : contains sub (sub ++ r) = true.
Proof. by rewrite contains_unfold, startswith_app. Qed.

Lemma contains_app_l (sub a b : str) :
  contains sub a = true -> contains sub (a ++ b) = true.
Proof.
  induction a as [|c a IH].
  - simpl. rewrite orb_false_r. intros H. destruct sub; [|done].
    by destruct b.
  - change ((c :: a) ++ b) with (c :: (a ++ b)). rewrite !contains_cons.
    intros [H|H]%orb_prop.
    + change (c :: (a ++ b)) with ((c :: a) ++ b).
      by rewrite startswith_app_l.
    + rewrite IH by done. apply orb_true_r.
Qed.

Lemma contains_app_r (sub a b : str) :
  contains sub b = true -> contains sub (a ++ b) = true.
Proof.
  intros H. induction a as [|c a IH]; [done|].
  change ((c :: a) ++ b) with (c :: (a ++ b)).
  rewrite contains_cons, IH. apply orb_true_r.
Qed.

Lemma before_prefix (sep s : str) : exists r, s = before sep s ++ r.
Proof.
  induction s as [|c t [r IH]]; [by exists []|].
  rewrite before_cons. destruct (startswith sep (c :: t)).
  - by exists (c :: t).
  - exists r. simpl. by rewrite <- IH.
Qed.

Lemma before_absent (sep s : str) :
  sep <> [] -> contains sep (before sep s) = false.
Proof.
  intros Hsep. induction s as [|c t IH].
  - simpl. by rewrite startswith_nil_r.
  - rewrite before_cons. destruct (startswith sep (c :: t)) eqn:Hsw.
    + simpl. by rewrite startswith_nil_r.
    + rewrite contains_cons, IH, orb_false_r.
      destruct (startswith sep (c :: before sep t)) eqn:Hsw'; [|done].
      destruct (before_prefix sep t) as [r Hr].
      rewrite Hr in Hsw. change (c :: (before sep t ++ r))
        with ((c :: before sep t) ++ r) in Hsw.
      by rewrite startswith_app_l in Hsw.
Qed.

Lemma before_id (sep s : str) : contains sep s = false -> before sep s = s.
Proof.
  induction s as [|c t IH]; [done|].
  rewrite contains_cons, before_cons. intros [-> H]%orb_false_elim.
  by rewrite IH.
Qed.



Lemma lstrip_suffix (s : str) : exists w, s = w ++ lstrip s.
Proof.
  induction s as [|c t [w IH]]; [by exists []|]. simpl.
  destruct (is_space c); [|by exists []].
  exists (c :: w). simpl. by rewrite <- IH.
Qed.

Lemma rstrip_prefix (s : str) : exists w, s = rstrip s ++ w.
Proof.
  unfold rstrip. destruct (lstrip_suffix (rev s)) as [w Hw].
  exists (rev w). rewrite <- rev_app_distr, <- Hw. by rewrite rev_involutive.
Qed.

Lemma strip_absent (sub s : str) :
  contains sub s = false -> contains sub (strip s) = false.
Proof.
  intros H. unfold strip.
  destruct (lstrip_suffix s) as [w Hw].
  destruct (rstrip_prefix (lstrip s)) as [w' Hw'].
  destruct (contains sub (rstrip (lstrip s))) eqn:Hc; [|done].
  rewrite Hw, Hw' in H. rewrite contains_app_r in H; [done|].
  by apply contains_app_l.
Qed.

Lemma lstrip_idemp (s : str) : lstrip (lstrip s) = lstrip s.
Proof.
  induction s as [|c t IH]; [done|]. simpl.
  destruct (is_space c) eqn:Hc; [done|]. simpl. by rewrite Hc.
Qed.

Lemma lstrip_app_nonspace (l : str) (c : char) (r : str) :
  is_space c = false -> lstrip (l ++ c :: r) = lstrip l ++ c :: r.
Proof.
  intros Hc. induction l as [|a l IH]; simpl; [by rewrite Hc|].
  by destruct (is_space a).
Qed.

Lemma rstrip_cons_nonspace (c : char) (t : str) :
  is_space c = false -> rstrip (c :: t) = c :: rstrip t.
Proof.
  intros Hc. unfold rstrip. simpl.
  rewrite lstrip_app_nonspace by done.
  by rewrite rev_app_distr.
Qed.

Lemma rstrip_idemp (s : str) : rstrip (rstrip s) = rstrip s.
Proof. unfold rstrip. by rewrite rev_involutive, lstrip_idemp. Qed.

Lemma lstrip_head (s : str) :
  lstrip s = [] \/ exists c t, lstrip s = c :: t /\ is_space c = false.
Proof.
  induction s as [|c t IH]; [by left|]. simpl.
  destruct (is_space c) eqn:Hc; [done|]. right. by exists c, t.
Qed.

Lemma strip_idemp (s : str) : strip (strip s) = strip s.
Proof.
  unfold strip. destruct (lstrip_head s) as [->|(c & t & -> & Hc)]; [done|].
  rewrite rstrip_cons_nonspace by done. simpl. rewrite Hc.
  rewrite rstrip_cons_nonspace by done. by rewrite rstrip_idemp.
Qed.

Lemma extract_absent (s : str) :
  contains MARKER (extract_answer_without_sources s) = false.
Proof.
  rewrite extract_before. apply strip_absent, before_absent. done.
Qed.


Lemma nl_to_sp_refl (s : str) : Forall2 nl_to_sp s s.
Proof. induction s; constructor; [by left|done]. Qed.

Lemma before_marker_after (a x y : str) :
  Forall2 nl_to_sp x y ->
  before MARKER (a ++ MARKER ++ x) = before MARKER (a ++ MARKER ++ y).
Proof.
  intros Hxy. induction a as [|c a IH].
  - by rewrite !app_nil_l, !before_hit.
  - change ((c :: a) ++ ?z) with (c :: (a ++ z)).
    rewrite !before_cons, IH.
    rewrite (startswith_nl_to_sp MARKER (c :: a ++ MARKER ++ x)
               (c :: a ++ MARKER ++ y)); [done|apply MARKER_plain|].
    constructor; [by left|].
    apply Forall2_app; [apply nl_to_sp_refl|].
    apply Forall2_app; [apply nl_to_sp_refl|done].
Qed.

Lemma before_marker_before (a b : str) :
  same_up_to_last (before MARKER (a ++ NL :: MARKER ++ b))
                  (before MARKER (a ++ SP :: MARKER ++ b)).
Proof.
  induction a as [|c a IH].
  - right. exists []. rewrite !app_nil_l, !before_cons.
    by rewrite !before_hit.
  - change ((c :: a) ++ ?z) with (c :: (a ++ z)).
    rewrite !before_cons.
    rewrite (startswith_nl_to_sp MARKER (c :: a ++ NL :: MARKER ++ b)
               (c :: a ++ SP :: MARKER ++ b)).
    + destruct (startswith MARKER (c :: a ++ SP :: MARKER ++ b));
        [by left|by apply same_up_to_last_cons].
    + apply MARKER_plain.
    + constructor; [by left|].
      apply Forall2_app; [apply nl_to_sp_refl|].
      constructor; [by right|apply nl_to_sp_refl].
Qed.

Lemma before_split (sep s : str) :
  contains sep s = true -> exists r, s = before sep s ++ sep ++ r.
Proof.
  induction s as [|c t IH].
  - rewrite contains_unfold, orb_false_r. destruct sep; [|done].
    by exists [].
  - rewrite contains_cons, before_cons.
    destruct (startswith sep (c :: t)) eqn:Hsw.
    + intros _. exists (drop (length sep) (c :: t)).
      by apply startswith_inv.
    + simpl. intros [r Hr]%IH. exists r. by rewrite <- Hr.
Qed.

(** C5: the parser returns the text in front of the first SOURCES: marker,
    trimmed of whitespace.  That text has no marker in it and, when the
    response has a marker, the response is that text, the marker and a
    rest.  A marker written after a newline and one written after a
    space give the same answer, and so do a marker followed by a newline
    and one followed by a space.  On the response "The cat sat.", newline,
    "SOURCES:", newline, "doc.pdf page 1" the answer is "The cat sat.".
    On a response without a marker it is the whole response, trimmed. *)
Theorem extract_answer_without_sources_spec :
  (forall s, extract_answer_without_sources s = strip (before MARKER s))
  /\ (forall s, contains MARKER (before MARKER s) = false)
  /\ (forall s, contains MARKER s = true ->
                exists r, s = before MARKER s ++ MARKER ++ r)
  /\ (forall a b,
        extract_answer_without_sources (a ++ NL :: MARKER ++ b)
        = extract_answer_without_sources (a ++ SP :: MARKER ++ b))
  /\ (forall a b,
        extract_answer_without_sources (a ++ MARKER ++ NL :: b)
        = extract_answer_without_sources (a ++ MARKER ++ SP :: b))
  /\ extract_answer_without_sources
       (of_string "The cat sat." ++ NL :: of_string "SOURCES:"
        ++ NL :: of_string "doc.pdf page 1")
     = of_string "The cat sat."
  /\ (forall s, contains MARKER s = false ->
                extract_answer_without_sources s = strip s).
Proof.
  split; [apply extract_before|].
  split; [intros s; by apply before_absent|].
  split; [apply before_split|].
  split.
  { intros a b. rewrite !extract_before.
    apply strip_same_up_to_last, before_marker_before. }
  split.
  { intros a b. rewrite !extract_before. f_equal.
    apply before_marker_after. constructor; [by right|apply nl_to_sp_refl]. }
  split; [by vm_compute|].
  intros s Hs. by rewrite extract_before, before_id.
Qed.

Lemma extract_answer_without_sources_spec_witness :
  contains MARKER (of_string "  Hello.  ") = false
  /\ extract_answer_without_sources (of_string "  Hello.  ")
     = strip (of_string "  Hello.  ").
Proof.
  split; [by vm_compute|].
  destruct extract_answer_without_sources_spec
    as (_ & _ & _ & _ & _ & _ & Hplain).
  apply Hplain. by vm_compute.
Defined.

(** C10: the parser is idempotent: parsing its own output changes
    nothing. *)
Theorem extract_answer_without_sources_idempotent (s : str) :
  extract_answer_without_sources (extract_answer_without_sources s)
  = extract_answer_without_sources s.
Proof.
  rewrite (extract_before (extract_answer_without_sources s)).
  rewrite before_id by apply extract_absent.
  rewrite extract_before. apply strip_idemp.
Qed.

(** ** Citations *)

Lemma rmap_inr {A B : Type} (f : A -> result B) (l : list A) (bs : list B) :
  rmap f l = inr bs <-> Forall2 (fun a b => f a = inr b) l bs.
Proof.
  revert bs. induction l as [|a l IH]; intros bs; simpl.
  - split; [intros [= <-]; constructor|by inversion 1].
  - destruct (f a) as [e|b] eqn:Hfa; simpl.
    + split; [done|]. inversion 1; congruence.
    + destruct (rmap f l) as [e|bs'] eqn:Hl; simpl.
      * split; [done|]. inversion 1 as [|? b' ? bs'' Hb Hbs]; subst.
        apply IH in Hbs. done.
      * split.
        -- intros [= <-]. constructor; [done|]. by apply IH.
        -- inversion 1 as [|? b' ? bs'' Hb Hbs]; subst.
           apply IH in Hbs. congruence.
Qed.

Lemma rmap_inl {A B : Type} (f : A -> result B) (l : list A) (e : exn) :
  rmap f l = inl e -> exists a, a ∈ l /\ f a = inl e.
Proof.
  induction l as [|a l IH]; simpl; [done|].
  destruct (f a) as [e'|b] eqn:Hfa; simpl.
  - intros [= ->]. exists a. split; [left|done].
  - destruct (rmap f l) as [e'|bs]; simpl; [|done].
    intros [= ->]. destruct IH as (a' & ? & ?); [done|].
    exists a'. split; [by right|done].
Qed.

Lemma StronglySorted_le_lt (l : list Z) :
  StronglySorted Z.le l -> NoDup l -> StronglySorted Z.lt l.
Proof.
  induction 1 as [|x l Hl IH Hx]; intros Hnd; constructor.
  - apply IH. by apply NoDup_cons in Hnd as [_ ?].
  - apply NoDup_cons in Hnd as [Hxl _].
    apply Forall_forall. intros y Hy.
    rewrite Forall_forall in Hx. specialize (Hx y Hy).
    assert (x <> y) by (intros ->; done). lia.
Qed.

Lemma sorted_spec (X : gset Z) :
  StronglySorted Z.lt (sorted X) /\ forall z, z ∈ sorted X <-> z ∈ X.
Proof.
  unfold sorted. split.
  - apply StronglySorted_le_lt.
    + apply (StronglySorted_merge_sort Z.le).
    + rewrite merge_sort_Permutation. apply NoDup_elements.
  - intros z. rewrite merge_sort_Permutation. apply elem_of_elements.
Qed.

(** ** The chat-input handler *)

Lemma of_string_not_nil (s : string) : s <> ""%string -> of_string s <> [].
Proof. by destruct s. Qed.

Lemma decimal_not_nil (z : Z) : decimal z <> [].
Proof.
  unfold decimal. apply of_string_not_nil.
  destruct (Z.to_int z) as [d|d]; simpl; [|done].
  by destruct d.
Qed.

Lemma join_not_nil (sep x : str) (l : list str) :
  x <> [] -> join sep (x :: l) <> [].
Proof. destruct x; [done|]. by destruct l. Qed.

Lemma str_of_int_inr (z : Z) (numeral : str) :
  str_of_int z = inr numeral <->
  numeral = decimal z
  /\ (length (decimal (Z.abs z)) <= INT_MAX_STR_DIGITS)%nat.
Proof.
  unfold str_of_int.
  destruct (INT_MAX_STR_DIGITS <? length (decimal (Z.abs z)))%nat eqn:Hlim.
  - apply Nat.ltb_lt in Hlim. split; [done|]. intros [_ ?]. lia.
  - apply Nat.ltb_ge in Hlim. split; [by intros [= <-]|by intros [-> _]].
Qed.

Lemma str_of_int_inl (z : Z) (e : exn) :
  str_of_int z = inl e <->
  e = ValueError
  /\ (INT_MAX_STR_DIGITS < length (decimal (Z.abs z)))%nat.
Proof.
  unfold str_of_int.
  destruct (INT_MAX_STR_DIGITS <? length (decimal (Z.abs z)))%nat eqn:Hlim.
  - apply Nat.ltb_lt in Hlim. split; [by intros [= <-]|by intros [-> _]].
  - apply Nat.ltb_ge in Hlim. split; [done|]. intros [_ ?]. lia.
Qed.

Lemma citation_string_inr (pages : list Z) (citation : str) :
  citation_string pages = inr citation <->
  citation = join (of_string ", ") (map decimal pages)
  /\ Forall (fun z => (length (decimal (Z.abs z)) <= INT_MAX_STR_DIGITS)%nat)
       pages.
Proof.
  unfold citation_string. split.
  - destruct (rmap str_of_int pages) as [e|numerals] eqn:Hr; [done|].
    simpl. intros [= <-]. apply rmap_inr in Hr.
    assert (numerals = map decimal pages
            /\ Forall (fun z => (length (decimal (Z.abs z))
                                  <= INT_MAX_STR_DIGITS)%nat) pages)
      as [-> ?]; [|done].
    induction Hr as [|z numeral ps ns Hz _ [-> IH]]; [done|].
    apply str_of_int_inr in Hz as [-> Hz]. split; [done|by constructor].
  - intros [-> Hsmall].
    assert (rmap str_of_int pages = inr (map decimal pages)) as ->; [|done].
    apply rmap_inr. induction Hsmall as [|z ps Hz _ IH]; constructor; [|done].
    by apply str_of_int_inr.
Qed.

Lemma citation_string_inl (pages : list Z) (e : exn) :
  citation_string pages = inl e ->
  e = ValueError
  /\ Exists (fun z => (INT_MAX_STR_DIGITS < length (decimal (Z.abs z)))%nat)
       pages.
Proof.
  unfold citation_string.
  destruct (rmap str_of_int pages) as [e'|numerals] eqn:Hr; [|done].
  simpl. intros [= ->]. apply rmap_inl in Hr as (z & Hin & Hz).
  apply str_of_int_inl in Hz as [-> Hz]. split; [done|].
  apply Exists_exists. by exists z.
Qed.

Lemma citation_string_nil (pages : list Z) (citation : str) :
  citation_string pages = inr citation -> citation = [] <-> pages = [].
Proof.
  intros [-> _]%citation_string_inr. split; [|by intros ->].
  destruct pages as [|z pages]; [done|].
  intros H. by apply join_not_nil in H; [|apply decimal_not_nil].
Qed.

Section Citations.

Context {pyval : Type} (py_int : pyval -> result Z).

Lemma citation_pages_inr (res : AnswerWithSources pyval) (ints : list Z) :
  Forall2 (page_of py_int) (sources res) ints ->
  citation_pages py_int res = inr (sorted (list_to_set ints)).
Proof.
  intros H. unfold citation_pages.
  assert (rmap (fun source =>
                  rbind (getitem (metadata source) (of_string "page")) py_int)
            (sources res) = inr ints) as ->; [|done].
  apply rmap_inr. eapply Forall2_impl; [exact H|].
  intros source z (v & Hv & Hz). unfold getitem. by rewrite Hv.
Qed.

Lemma citation_pages_inv (res : AnswerWithSources pyval) (pages : list Z) :
  citation_pages py_int res = inr pages ->
  exists ints, Forall2 (page_of py_int) (sources res) ints
               /\ pages = sorted (list_to_set ints).
Proof.
  unfold citation_pages.
  destruct (rmap _ (sources res)) as [e|ints] eqn:Hr; simpl; [done|].
  intros [= <-]. exists ints. split; [|done].
  apply rmap_inr in Hr. eapply Forall2_impl; [exact Hr|].
  intros source z. unfold getitem, page_of.
  destruct (metadata source !! of_string "page") as [v|]; simpl; [|done].
  intros Hz. by exists v.
Qed.

Lemma citation_pages_inl (res : AnswerWithSources pyval) (e : exn) :
  citation_pages py_int res = inl e ->
  exists source, source ∈ sources res /\ forall z, ~ page_of py_int source z.
Proof.
  unfold citation_pages.
  destruct (rmap _ (sources res)) as [e'|ints] eqn:Hr; simpl; [|done].
  intros _. apply rmap_inl in Hr as (source & Hin & Hs).
  exists source. split; [done|]. intros z (v & Hv & Hz).
  unfold getitem in Hs. rewrite Hv in Hs. simpl in Hs. congruence.
Qed.

End Citations.

Section Handler.

Context {pyval : Type} (py_int : pyval -> result Z).
Context {FolderIndex LLM : Type}.
Context (get_llm : str -> str -> Qc -> result LLM).
Context (query_folder :
  FolderIndex -> str -> bool -> LLM -> result (AnswerWithSources pyval)).
Context (folder_index : FolderIndex) (model openai_api_key : str).
Context (return_all_chunks : bool).

Local Abbreviation handler :=
  (chat_input_handler py_int get_llm query_folder folder_index model
     openai_api_key return_all_chunks).

Lemma handler_query_fails query llm e s :
  query <> [] ->
  get_llm model openai_api_key TEMPERATURE = inr llm ->
  query_folder folder_index query return_all_chunks llm = inl e ->
  handler (Some query) s = (asked query s, inl (Raise e)).
Proof.
  intros Hq Hllm Hqf. destruct query as [|c q]; [done|].
  unfold chat_input_handler, bind, call, append_message, show.
  simpl. by rewrite Hllm, Hqf.
Qed.

Lemma handler_citations_fail query llm res e s :
  query <> [] ->
  get_llm model openai_api_key TEMPERATURE = inr llm ->
  query_folder folder_index query return_all_chunks llm = inr res ->
  citation_pages py_int res = inl e ->
  handler (Some query) s = (asked query s, inl (Raise e)).
Proof.
  intros Hq Hllm Hqf Hc. destruct query as [|c q]; [done|].
  unfold chat_input_handler, bind, call, append_message, show.
  simpl. by rewrite Hllm, Hqf, Hc.
Qed.

Lemma handler_numerals_fail query llm res pages e s :
  query <> [] ->
  get_llm model openai_api_key TEMPERATURE = inr llm ->
  query_folder folder_index query return_all_chunks llm = inr res ->
  citation_pages py_int res = inr pages ->
  citation_string pages = inl e ->
  handler (Some query) s = (asked query s, inl (Raise e)).
Proof.
  intros Hq Hllm Hqf Hc Hs. destruct query as [|c q]; [done|].
  unfold chat_input_handler, bind, call, append_message, show.
  simpl. by rewrite Hllm, Hqf, Hc, Hs.
Qed.

(** The handler once the queries and the citation string succeeded: the
    answer is committed, and shown unless it cannot be written. *)
Lemma handler_commits query llm res pages citation s :
  query <> [] ->
  get_llm model openai_api_key TEMPERATURE = inr llm ->
  query_folder folder_index query return_all_chunks llm = inr res ->
  citation_pages py_int res = inr pages ->
  citation_string pages = inr citation ->
  handler (Some query) s
  = if has_surrogate (assemble_answer res citation)
    then (committed_unshown query (assemble_answer res citation) s,
          inl (Raise (UnicodeEncodeError (assemble_answer res citation))))
    else (answered query (assemble_answer res citation) s, inr tt).
Proof.
  intros Hq Hllm Hqf Hc Hs. destruct query as [|c q]; [done|].
  unfold chat_input_handler, bind, call, append_message, show, st_write.
  simpl. rewrite Hllm, Hqf, Hc, Hs.
  destruct (has_surrogate (assemble_answer res citation)).
  - unfold committed_unshown, call. simpl. by rewrite <- !app_assoc.
  - unfold answered, show. simpl. by rewrite <- !app_assoc.
Qed.

Lemma pages_exist (l : list (Document pyval)) :
  Forall (fun source => exists z, page_of py_int source z) l ->
  exists ints, Forall2 (page_of py_int) l ints.
Proof.
  induction 1 as [|source l [z Hz] _ [ints IH]]; [by exists []|].
  exists (z :: ints). by constructor.
Qed.

(** C4: the citation list is obtained from the source chunks by looking
    up each chunk's page, coercing it with [int], collecting the integers
    in a set, sorting the set in ascending order and joining the numerals
    with a comma and a space: the pages are strictly ascending and are
    exactly the integers of the chunks; pages 3, 1, 3, 2 give "1, 2, 3".
    The answer committed to the history is the text of lines 140-144
    with the model's answer and, after "pages: ", that list; with no
    source chunk no citation line is appended and the answer is what the
    parser returns.  The answer is shown as committed unless it has a
    surrogate, which [st.write] refuses.  [str] refuses a page of more
    than 4300 digits; then nothing is committed but the question. *)
Theorem citation_list_rendering query llm res ints s :
  query <> [] ->
  get_llm model openai_api_key TEMPERATURE = inr llm ->
  query_folder folder_index query return_all_chunks llm = inr res ->
  Forall2 (page_of py_int) (sources res) ints ->
  exists pages,
    citation_pages py_int res = inr pages
    /\ StronglySorted Z.lt pages
    /\ (forall z, z ∈ pages <-> z ∈ ints)
    /\ (ints = [3; 1; 3; 2] ->
        citation_string pages = inr (of_string "1, 2, 3"))
    /\ (forall e,
          citation_string pages = inl e ->
          e = ValueError
          /\ Exists (fun z =>
                       (INT_MAX_STR_DIGITS < length (decimal (Z.abs z)))%nat)
               pages
          /\ handler (Some query) s = (asked query s, inl (Raise ValueError)))
    /\ (forall citation,
          citation_string pages = inr citation ->
          citation = join (of_string ", ") (map decimal pages)
          /\ exists reply,
               messages (handler (Some query) s).1
               = messages s
                 ++ [ {| turn_role := user; content := query |};
                      {| turn_role := assistant; content := reply |} ]
               /\ (ints = [] ->
                   reply = extract_answer_without_sources (answer res))
               /\ (ints <> [] ->
                   reply
                   = [NL] ++ of_string "        " ++ answer res ++ [NL]
                     ++ of_string "        " ++ [NL]
                     ++ of_string "        "
                     ++ of_string "<span style=" ++ [DQUOTE]
                     ++ of_string
                          "color:grey; font-size: small; font-style: italic;"
                     ++ [DQUOTE]
                     ++ of_string
                          ">The information was found on the following pages: "
                     ++ citation ++ of_string ".</span>" ++ [NL]
                     ++ of_string "        ")
               /\ (has_surrogate reply = false ->
                   handler (Some query) s
                   = (answered query reply s, inr tt))
               /\ (has_surrogate reply = true ->
                   handler (Some query) s
                   = (committed_unshown query reply s,
                      inl (Raise (UnicodeEncodeError reply))))).
Proof.
  intros Hq Hllm Hqf Hints. exists (sorted (list_to_set ints)).
  pose proof (citation_pages_inr py_int res ints Hints) as Hc.
  destruct (sorted_spec (list_to_set ints)) as [Hsorted Hmem].
  split; [done|]. split; [done|].
  split; [intros z; by rewrite Hmem, elem_of_list_to_set|].
  split; [intros ->; by vm_compute|]. split.
  - intros e He. destruct (citation_string_inl _ _ He) as [-> Hbig].
    split; [done|]. split; [done|].
    by apply (handler_numerals_fail query llm res (sorted (list_to_set ints))).
  - intros citation Hs.
    pose proof (handler_commits query llm res _ citation s Hq Hllm Hqf Hc Hs)
      as Hrun.
    pose proof (citation_string_nil _ _ Hs) as Hnil.
    destruct (proj1 (citation_string_inr _ _) Hs) as [Hjoin _].
    split; [done|]. exists (assemble_answer res citation).
    split.
    { rewrite Hrun. by destruct (has_surrogate _). }
    assert (sorted (list_to_set ints) = [] <-> ints = []) as Hempty.
    { split.
      - intros Hp. destruct ints as [|z ints']; [done|].
        assert (z ∈ sorted (list_to_set (z :: ints'))) as Hz
          by (apply Hmem, elem_of_list_to_set; left).
        rewrite Hp in Hz. by apply elem_of_nil in Hz.
      - by intros ->. }
    split; [|split; [|split]].
    + intros Hi. apply Hempty, Hnil in Hi. by rewrite Hi.
    + intros Hi. unfold assemble_answer.
      destruct citation as [|c cs]; [|done].
      by destruct Hi; apply Hempty, Hnil.
    + intros Hw. by rewrite Hrun, Hw.
    + intros Hw. by rewrite Hrun, Hw.
Qed.

(** C1, as amended: when the derived citation set is empty, the assistant
    answer that is committed to the history is the output of the parser
    on the model response: the text before the first SOURCES: marker,
    trimmed, with no marker and hence nothing of what followed it.  That
    text is what is shown, unless it has a surrogate: then [st.write]
    raises after the commit and no answer is shown. *)
Theorem answer_without_citations_discards_sources query llm res s :
  query <> [] ->
  get_llm model openai_api_key TEMPERATURE = inr llm ->
  query_folder folder_index query return_all_chunks llm = inr res ->
  citation_pages py_int res = inr [] ->
  exists committed,
    messages (handler (Some query) s).1
    = messages s
      ++ [ {| turn_role := user; content := query |};
           {| turn_role := assistant; content := committed |} ]
    /\ committed = extract_answer_without_sources (answer res)
    /\ committed = strip (before MARKER (answer res))
    /\ contains MARKER committed = false
    /\ (has_surrogate committed = false ->
        handler (Some query) s = (answered query committed s, inr tt))
    /\ (has_surrogate committed = true ->
        handler (Some query) s
        = (committed_unshown query committed s,
           inl (Raise (UnicodeEncodeError committed)))).
Proof.
  intros Hq Hllm Hqf Hc.
  exists (extract_answer_without_sources (answer res)).
  pose proof (handler_commits query llm res [] [] s Hq Hllm Hqf Hc eq_refl)
    as Hrun.
  change (assemble_answer res []) with
    (extract_answer_without_sources (answer res)) in Hrun.
  split; [rewrite Hrun; by destruct (has_surrogate _)|].
  split; [done|]. split; [apply extract_before|].
  split; [apply extract_absent|].
  split; intros Hw; by rewrite Hrun, Hw.
Qed.

(** C2, as amended: when the query step fails with a GenerationError, no
    assistant answer is committed; the history holds the turns it held
    before and the user's question, which was appended before the query
    was made, and the error ends the run. *)
Theorem failed_query_commits_question_only query llm reason s :
  query <> [] ->
  get_llm model openai_api_key TEMPERATURE = inr llm ->
  query_folder folder_index query return_all_chunks llm
  = inl (GenerationError reason) ->
  exists s',
    handler (Some query) s = (s', inl (Raise (GenerationError reason)))
    /\ messages s'
       = messages s ++ [ {| turn_role := user; content := query |} ]
    /\ screen s' = screen s ++ [ChatMessage user query].
Proof.
  intros Hq Hllm Hqf. exists (asked query s).
  by rewrite (handler_query_fails query llm _ s Hq Hllm Hqf).
Qed.

(** C9: rendering the citations succeeds exactly when every source chunk
    has a page entry that [int] accepts.  When some chunk has none, the
    rendering raises, nothing catches the exception, and the handler ends
    with the user's question in the history and no assistant turn. *)
Theorem citations_need_integer_pages query llm res s :
  query <> [] ->
  get_llm model openai_api_key TEMPERATURE = inr llm ->
  query_folder folder_index query return_all_chunks llm = inr res ->
  ((exists pages, citation_pages py_int res = inr pages)
   <-> Forall (fun source => exists z, page_of py_int source z)
         (sources res))
  /\ (Exists (fun source => forall z, ~ page_of py_int source z)
        (sources res) ->
      exists e,
        citation_pages py_int res = inl e
        /\ handler (Some query) s = (asked query s, inl (Raise e))
        /\ messages (asked query s)
           = messages s ++ [ {| turn_role := user; content := query |} ]).
Proof.
  intros Hq Hllm Hqf. split.
  - split.
    + intros [pages (ints & Hints & _)%citation_pages_inv].
      eapply Forall2_Forall_l; [exact Hints|].
      apply Forall_true. intros z source Hz. by exists z.
    + intros [ints Hints]%pages_exist.
      eexists. by apply citation_pages_inr.
  - intros Hbad. destruct (citation_pages py_int res) as [e|pages] eqn:Hc.
    + exists e. split; [done|]. split; [|done].
      by apply (handler_citations_fail query llm res).
    + apply citation_pages_inv in Hc as (ints & Hints & _).
      apply Exists_exists in Hbad as (source & Hin & Hbad).
      apply list_elem_of_lookup in Hin as [i Hi].
      destruct (Forall2_lookup_l _ _ _ _ _ Hints Hi) as (z & _ & Hz).
      by destruct (Hbad z).
Qed.

End Handler.

(** ** The upload pipeline *)

Section Pipeline.

Context {pyval FolderIndex : Type}.
Context (read_file : UploadedFile -> result (File pyval)).
Context (display_file_read_error : exn -> str -> M unit).
Context (chunk_file : File pyval -> Z -> Z -> result (File pyval)).
Context (is_file_valid : File pyval -> bool).
Context (is_open_ai_key_valid : str -> str -> bool).
Context (embed_files :
  list (File pyval) -> str -> str -> str -> result FolderIndex).

Lemma read_ok_cons_ok u f rest :
  read_file u = inr f -> read_ok read_file (u :: rest) = f :: read_ok read_file rest.
Proof. intros H. unfold read_ok. simpl. by rewrite H. Qed.

Lemma read_ok_cons_fail u e rest :
  read_file u = inl e -> read_ok read_file (u :: rest) = read_ok read_file rest.
Proof. intros H. unfold read_ok. simpl. by rewrite H. Qed.

(** When the handler of a failed read returns, the loop goes on with the
    next file. *)
Lemma read_loop_continues u e rest files file s s1 :
  read_file u = inl e ->
  display_file_read_error e (name u) s = (s1, inr tt) ->
  read_loop read_file display_file_read_error (u :: rest) files file s
  = read_loop read_file display_file_read_error rest files file s1.
Proof. intros Hu Hd. simpl. rewrite Hu. unfold bind. by rewrite Hd. Qed.

(** When it halts, so does the loop. *)
Lemma read_loop_halts ok u e rest files file s s1 h :
  Forall (fun u' => exists f, read_file u' = inr f) ok ->
  read_file u = inl e ->
  display_file_read_error e (name u) s = (s1, inl h) ->
  read_loop read_file display_file_read_error (ok ++ u :: rest) files file s
  = (s1, inl h).
Proof.
  intros Hok Hu Hd. revert files file.
  induction Hok as [|u' ok [f Hf] _ IH]; intros files file; simpl.
  - rewrite Hu. unfold bind. by rewrite Hd.
  - rewrite Hf. apply IH.
Qed.

Lemma read_loop_returns ups files file s s' files' file' :
  read_loop read_file display_file_read_error ups files file s
  = (s', inr (files', file')) ->
  files' = files ++ read_ok read_file ups
  /\ file' = match last (read_ok read_file ups) with
             | Some f => Some f
             | None => file
             end.
Proof.
  revert files file s. induction ups as [|u rest IH]; intros files file s.
  - simpl. unfold ret. intros [= <- <- <-]. by rewrite app_nil_r.
  - cbn [read_loop]. destruct (read_file u) as [e|f] eqn:Hu.
    + unfold bind.
      destruct (display_file_read_error e (name u) s) as [s1 [h|[]]]; [done|].
      intros H. apply IH in H. by rewrite (read_ok_cons_fail _ _ _ Hu).
    + intros H. apply IH in H as [-> ->].
      rewrite (read_ok_cons_ok _ _ _ Hu), <- app_assoc. split; [done|].
      rewrite last_cons. by destruct (last (read_ok read_file rest)).
Qed.

Local Abbreviation pipeline :=
  (upload_pipeline read_file display_file_read_error chunk_file
     is_file_valid is_open_ai_key_valid embed_files).

(** What has happened when the pipeline returns an index. *)
Lemma upload_pipeline_built ups model key s s' index :
  pipeline ups model key s = (s', inr index) ->
  exists chunked f,
    Forall2 (fun file c => chunk_file file 300 0 = inr c)
      (read_ok read_file ups) chunked
    /\ last (read_ok read_file ups) = Some f
    /\ is_file_valid f = true
    /\ is_open_ai_key_valid key model = true
    /\ embed_files chunked (kind_for EMBEDDING model)
         (kind_for VECTOR_STORE model) key = inr index.
Proof.
  unfold upload_pipeline. destruct ups as [|u rest]; [done|].
  unfold bind at 1.
  destruct (read_loop _ _ _ _ _ s) as [s1 [h|[files file]]] eqn:Hr; [done|].
  apply read_loop_returns in Hr as [-> ->]. cbn [fst snd app].
  unfold bind, call, variable, ret, st_stop.
  destruct (rmap _ _) as [e|chunked] eqn:Hc; [done|].
  apply rmap_inr in Hc.
  destruct (last (read_ok read_file (u :: rest))) as [f|] eqn:Hlast;
    [|done].
  destruct (is_file_valid f) eqn:Hv; [|done].
  destruct (is_open_ai_key_valid key model) eqn:Hk; [|done].
  cbv beta iota.
  destruct (embed_files _ _ _ _) as [e|index'] eqn:He; [done|].
  intros [= <- <-]. by exists chunked, f.
Qed.

Lemma rmap_ext {A B : Type} (f g : A -> result B) (l : list A) :
  (forall a, f a = g a) -> rmap f l = rmap g l.
Proof.
  intros Hfg. induction l as [|a l IH]; [done|].
  simpl. by rewrite Hfg, IH.
Qed.

(** C7: the chunker is given the chunk size 300 and the overlap 0 as
    arguments, and 0 <= 0 < 300.  The run depends on the chunker only
    through its results at these two values, and an index that is built is
    built from the results of the chunker at 300 and 0 on each file that
    was read. *)
Theorem chunker_parameters ups model key s :
  (let chunk_size := 300 in
   let chunk_overlap := 0 in
   0 <= chunk_overlap < chunk_size)
  /\ (forall chunk_file',
        (forall file, chunk_file' file 300 0 = chunk_file file 300 0) ->
        upload_pipeline read_file display_file_read_error chunk_file'
          is_file_valid is_open_ai_key_valid embed_files ups model key s
        = pipeline ups model key s)
  /\ (forall s' index,
        pipeline ups model key s = (s', inr index) ->
        exists chunked,
          Forall2 (fun file c => chunk_file file 300 0 = inr c)
            (read_ok read_file ups) chunked
          /\ embed_files chunked (kind_for EMBEDDING model)
               (kind_for VECTOR_STORE model) key = inr index).
Proof.
  split; [simpl; lia|]. split.
  - intros chunk_file' Hext. unfold upload_pipeline.
    destruct ups as [|u rest]; [done|].
    unfold bind.
    destruct (read_loop _ _ _ _ _ s) as [s1 [h|read]]; [done|].
    by rewrite (rmap_ext (fun file => chunk_file' file 300 0)
                  (fun file => chunk_file file 300 0)).
  - intros s' index (chunked & f & Hc & _ & _ & _ & He)%upload_pipeline_built.
    by exists chunked.
Qed.

Lemma MODEL_LIST_not_debug (model : str) :
  model ∈ MODEL_LIST -> model <> DEBUG.
Proof.
  unfold MODEL_LIST. rewrite !elem_of_cons, elem_of_nil.
  intros [->|[->|[->|[->|[]]]]]; done.
Qed.

(** C8: for a model of MODEL_LIST, the only models the select box offers,
    the embedding kind given to the index build is "openai" and the
    vector-store kind is "faiss"; the model is never "debug", so the
    "debug" alternative of either argument is not taken. *)
Theorem selectable_models_use_openai_and_faiss model :
  model ∈ MODEL_LIST ->
  model <> DEBUG
  /\ kind_for EMBEDDING model = of_string "openai"
  /\ kind_for VECTOR_STORE model = of_string "faiss"
  /\ forall ups key s s' index,
       pipeline ups model key s = (s', inr index) ->
       exists chunked,
         embed_files chunked (of_string "openai") (of_string "faiss") key
         = inr index.
Proof.
  intros Hm%MODEL_LIST_not_debug.
  assert (forall value, kind_for value model = value) as Hkind.
  { intros value. unfold kind_for. by destruct (decide (model <> DEBUG)). }
  split; [done|]. split; [apply Hkind|]. split; [apply Hkind|].
  intros ups key s s' index
    (chunked & f & _ & _ & _ & _ & He)%upload_pipeline_built.
  rewrite !Hkind in He. by exists chunked.
Qed.

End Pipeline.

Section ReadErrors.

Context {pyval FolderIndex : Type}.
Context (read_file : UploadedFile -> result (File pyval)).
Context (chunk_file : File pyval -> Z -> Z -> result (File pyval)).
Context (is_file_valid : File pyval -> bool).
Context (is_open_ai_key_valid : str -> str -> bool).
Context (embed_files :
  list (File pyval) -> str -> str -> str -> result FolderIndex).

(** C6: a ReadError ends the upload.  With the error display of the spec,
    at the first file that cannot be read the error is shown with the
    name of that file and the run stops: no file after it is read,
    nothing is chunked and no index is built. *)
Theorem read_error_stops_the_upload ok u e rest model key s :
  Forall (fun u' => exists f, read_file u' = inr f) ok ->
  read_file u = inl e ->
  upload_pipeline read_file SpecModel.display_file_read_error chunk_file
    is_file_valid is_open_ai_key_valid embed_files (ok ++ u :: rest)
    model key s
  = ({| messages := messages s;
        screen := screen s ++ [FileReadError e (name u)] |}, inl Stop).
Proof.
  intros Hok Hu. unfold upload_pipeline.
  destruct (ok ++ u :: rest) as [|u0 ups] eqn:Hups;
    [by destruct ok|].
  rewrite <- Hups. unfold bind at 1.
  by rewrite (read_loop_halts read_file SpecModel.display_file_read_error
                ok u e rest [] None s _ Stop Hok Hu eq_refl).
Qed.

End ReadErrors.

(** ** Worked cases *)

Lemma chunk_on_page_page (page : Z) :
  page_of inr (Demo.chunk_on_page page) page.
Proof. exists page. split; [apply lookup_singleton_eq|done]. Qed.

Lemma chunk_without_page_no_page (z : Z) :
  ~ page_of inr Demo.chunk_without_page z.
Proof. intros (v & Hv & _). by vm_compute in Hv. Qed.

Lemma citation_list_rendering_witness :
  (Demo.WHY <> []
   /\ Demo.get_llm Demo.GPT4 Demo.KEY TEMPERATURE = inr tt
   /\ Demo.query_folder (inr Demo.four_pages) Demo.index Demo.WHY false tt
      = inr Demo.four_pages
   /\ Forall2 (page_of inr) (sources Demo.four_pages) [3; 1; 3; 2])
  /\ exists pages,
       citation_pages inr Demo.four_pages = inr pages
       /\ citation_string pages = inr (of_string "1, 2, 3")
       /\ Demo.ask (inr Demo.four_pages) Demo.start
          = (answered Demo.WHY
               (answer_with_citations (of_string "Yes.")
                  (of_string "1, 2, 3")) Demo.start,
             inr tt).
Proof.
  assert (Forall2 (page_of inr) (sources Demo.four_pages) [3; 1; 3; 2])
    as Hints by (repeat constructor; apply chunk_on_page_page).
  split; [done|].
  destruct (citation_list_rendering inr Demo.get_llm
              (Demo.query_folder (inr Demo.four_pages)) Demo.index
              Demo.GPT4 Demo.KEY false Demo.WHY tt Demo.four_pages
              [3; 1; 3; 2] Demo.start)
    as (pages & Hc & _ & _ & Hex & _ & Hrun); [done..|].
  exists pages. split; [done|]. split; [by apply Hex|].
  destruct (Hrun (of_string "1, 2, 3") (Hex eq_refl))
    as (_ & reply & _ & _ & Hreply & Hshown & _).
  rewrite (Hreply ltac:(done)) in Hshown.
  etrans; [apply Hshown; by vm_compute|]. done.
Defined.

Lemma answer_without_citations_discards_sources_witness :
  (Demo.WHY <> []
   /\ Demo.get_llm Demo.GPT4 Demo.KEY TEMPERATURE = inr tt
   /\ Demo.query_folder (inr Demo.uncited) Demo.index Demo.WHY false tt
      = inr Demo.uncited
   /\ citation_pages inr Demo.uncited = inr [])
  /\ exists committed,
       messages (Demo.ask (inr Demo.uncited) Demo.start).1
       = messages Demo.start
         ++ [ {| turn_role := user; content := Demo.WHY |};
              {| turn_role := assistant; content := committed |} ]
       /\ committed = extract_answer_without_sources (answer Demo.uncited)
       /\ committed = strip (before MARKER (answer Demo.uncited))
       /\ contains MARKER committed = false
       /\ (has_surrogate committed = false ->
           Demo.ask (inr Demo.uncited) Demo.start
           = (answered Demo.WHY committed Demo.start, inr tt))
       /\ (has_surrogate committed = true ->
           Demo.ask (inr Demo.uncited) Demo.start
           = (committed_unshown Demo.WHY committed Demo.start,
              inl (Raise (UnicodeEncodeError committed)))).
Proof.
  split; [done|].
  by apply (answer_without_citations_discards_sources inr Demo.get_llm
              (Demo.query_folder (inr Demo.uncited)) Demo.index
              Demo.GPT4 Demo.KEY false Demo.WHY tt).
Defined.

(** C1 fails as stated: with a citation, the committed answer keeps the
    marker of the model response and the text after it. *)
Lemma answer_with_citations_keeps_sources_text :
  exists committed,
    Demo.ask (inr Demo.cited) Demo.start
    = (answered Demo.WHY committed Demo.start, inr tt)
    /\ answer Demo.cited = of_string "Yes. SOURCES: doc.pdf page 1"
    /\ contains (of_string "SOURCES: doc.pdf page 1") committed = true
    /\ committed <> extract_answer_without_sources (answer Demo.cited).
Proof.
  eexists. split; [by vm_compute|]. split; [done|].
  split; [by vm_compute|]. by vm_compute.
Qed.

Lemma failed_query_commits_question_only_witness :
  (Demo.WHY <> []
   /\ Demo.get_llm Demo.GPT4 Demo.KEY TEMPERATURE = inr tt
   /\ Demo.query_folder (inl (GenerationError (of_string "rate limit")))
        Demo.index Demo.WHY false tt
      = inl (GenerationError (of_string "rate limit")))
  /\ exists s',
       Demo.ask (inl (GenerationError (of_string "rate limit"))) Demo.start
       = (s', inl (Raise (GenerationError (of_string "rate limit"))))
       /\ messages s'
          = messages Demo.start
            ++ [ {| turn_role := user; content := Demo.WHY |} ]
       /\ screen s' = screen Demo.start ++ [ChatMessage user Demo.WHY].
Proof.
  split; [done|].
  by apply (failed_query_commits_question_only inr Demo.get_llm
              (Demo.query_folder
                 (inl (GenerationError (of_string "rate limit"))))
              Demo.index Demo.GPT4 Demo.KEY false Demo.WHY tt).
Defined.

(** C2 fails as stated: after a GenerationError the history is not what it
    was; it has the user's question in it. *)
Lemma failed_query_changes_history :
  exists s',
    Demo.ask (inl (GenerationError (of_string "rate limit"))) Demo.start
    = (s', inl (Raise (GenerationError (of_string "rate limit"))))
    /\ messages s' <> messages Demo.start
    /\ {| turn_role := user; content := Demo.WHY |} ∈ messages s'.
Proof.
  eexists. split; [by vm_compute|]. split; [by vm_compute|].
  right. left.
Qed.

Lemma citations_need_integer_pages_witness :
  (Demo.WHY <> []
   /\ Demo.get_llm Demo.GPT4 Demo.KEY TEMPERATURE = inr tt
   /\ Demo.query_folder (inr Demo.broken) Demo.index Demo.WHY false tt
      = inr Demo.broken
   /\ Exists (fun source => forall z, ~ page_of inr source z)
        (sources Demo.broken))
  /\ exists e,
       citation_pages inr Demo.broken = inl e
       /\ Demo.ask (inr Demo.broken) Demo.start
          = (asked Demo.WHY Demo.start, inl (Raise e))
       /\ messages (asked Demo.WHY Demo.start)
          = messages Demo.start
            ++ [ {| turn_role := user; content := Demo.WHY |} ].
Proof.
  assert (Exists (fun source => forall z, ~ page_of inr source z)
            (sources Demo.broken)) as Hbad.
  { right. left. apply chunk_without_page_no_page. }
  split; [done|].
  by apply (citations_need_integer_pages inr Demo.get_llm
              (Demo.query_folder (inr Demo.broken)) Demo.index
              Demo.GPT4 Demo.KEY false Demo.WHY tt Demo.broken Demo.start).
Defined.

(** C3 does not hold of the code: only the file read last is validated.
    A document with no text, uploaded before one with text, passes: the
    index is built with it.  Uploaded last, it stops the run. *)
Theorem only_last_file_is_validated :
  Demo.read_file Demo.scan_pdf = inr Demo.scan_file
  /\ Demo.read_file Demo.notes_txt = inr Demo.notes_file
  /\ text_length Demo.scan_file = 0%nat
  /\ SpecModel.is_file_valid Demo.scan_file = false
  /\ (exists chunked_scan chunked_notes,
        Demo.chunk_file Demo.scan_file 300 0 = inr chunked_scan
        /\ Demo.chunk_file Demo.notes_file 300 0 = inr chunked_notes
        /\ Demo.upload [Demo.scan_pdf; Demo.notes_txt] Demo.start
           = (Demo.start,
              inr ([chunked_scan; chunked_notes], EMBEDDING, VECTOR_STORE)))
  /\ Demo.upload [Demo.notes_txt; Demo.scan_pdf] Demo.start
     = (Demo.start, inl Stop).
Proof.
  split; [by vm_compute|]. split; [by vm_compute|].
  split; [by vm_compute|]. split; [by vm_compute|].
  split; [|by vm_compute].
  eexists _, _. split; [by vm_compute|]. split; [by vm_compute|].
  by vm_compute.
Qed.

Lemma chunker_parameters_witness :
  Demo.upload [Demo.notes_txt] Demo.start
  = (Demo.start, inr ([Demo.notes_file], EMBEDDING, VECTOR_STORE))
  /\ exists chunked,
       Forall2 (fun file c => Demo.chunk_file file 300 0 = inr c)
         (read_ok Demo.read_file [Demo.notes_txt]) chunked
       /\ Demo.embed_files chunked (kind_for EMBEDDING Demo.GPT4)
            (kind_for VECTOR_STORE Demo.GPT4) Demo.KEY
          = inr ([Demo.notes_file], EMBEDDING, VECTOR_STORE).
Proof.
  assert (Demo.upload [Demo.notes_txt] Demo.start
          = (Demo.start, inr ([Demo.notes_file], EMBEDDING, VECTOR_STORE)))
    as Hrun by (by vm_compute).
  split; [done|].
  exact (proj2 (proj2 (chunker_parameters Demo.read_file
                         SpecModel.display_file_read_error Demo.chunk_file
                         SpecModel.is_file_valid Demo.is_open_ai_key_valid
                         Demo.embed_files [Demo.notes_txt] Demo.GPT4
                         Demo.KEY Demo.start))
           Demo.start _ Hrun).
Defined.

Lemma selectable_models_use_openai_and_faiss_witness :
  Demo.GPT4 ∈ MODEL_LIST
  /\ Demo.GPT4 <> DEBUG
  /\ kind_for EMBEDDING Demo.GPT4 = of_string "openai"
  /\ kind_for VECTOR_STORE Demo.GPT4 = of_string "faiss".
Proof.
  assert (Demo.GPT4 ∈ MODEL_LIST) as Hm by (do 2 right; left).
  split; [done|].
  destruct (selectable_models_use_openai_and_faiss Demo.read_file
              SpecModel.display_file_read_error Demo.chunk_file
              SpecModel.is_file_valid Demo.is_open_ai_key_valid
              Demo.embed_files Demo.GPT4 Hm) as (H1 & H2 & H3 & _).
  done.
Defined.

Lemma read_error_stops_the_upload_witness :
  (Forall (fun u' => exists f, Demo.read_file u' = inr f) [Demo.notes_txt]
   /\ Demo.read_file Demo.photo_png
      = inl (ReadError (of_string "unsupported file type")))
  /\ Demo.upload [Demo.notes_txt; Demo.photo_png; Demo.notes_txt] Demo.start
     = ({| messages := messages Demo.start;
           screen :=
             screen Demo.start
             ++ [FileReadError (ReadError (of_string "unsupported file type"))
                   (name Demo.photo_png)] |},
        inl Stop).
Proof.
  assert (Forall (fun u' => exists f, Demo.read_file u' = inr f)
            [Demo.notes_txt]) as Hok.
  { constructor; [|constructor]. by exists Demo.notes_file. }
  split; [done|].
  exact (read_error_stops_the_upload Demo.read_file Demo.chunk_file
           SpecModel.is_file_valid Demo.is_open_ai_key_valid
           Demo.embed_files [Demo.notes_txt] Demo.photo_png _
           [Demo.notes_txt] Demo.GPT4 Demo.KEY Demo.start Hok eq_refl).
Defined.

(** ** More about the answer parser *)

Lemma strip_part (x : str) : exists a b, x = a ++ strip x ++ b.
Proof.
  unfold strip. destruct (lstrip_suffix x) as [a Ha].
  destruct (rstrip_prefix (lstrip x)) as [b Hb].
  exists a, b. by rewrite <- Hb.
Qed.

(** X1: the answer the parser returns is a contiguous part of the
    response: the response is some text, the answer, and some more
    text.  The parser adds and changes nothing. *)
Theorem extract_is_part_of_response (s : str) :
  exists a b, s = a ++ extract_answer_without_sources s ++ b.
Proof.
  rewrite extract_before.
  destruct (before_prefix MARKER s) as [r Hr].
  destruct (strip_part (before MARKER s)) as (a & b & Hab).
  exists a, (b ++ r). rewrite Hr at 1. rewrite Hab at 1.
  by rewrite <- !app_assoc.
Qed.

Lemma head_lstrip (s : str) (c : char) :
  head (lstrip s) = Some c -> is_space c = false.
Proof.
  destruct (lstrip_head s) as [->|(c' & t & -> & Hc)]; [done|].
  by intros [= <-].
Qed.

Lemma last_rev (l : str) : last (rev l) = head l.
Proof. destruct l as [|c t]; [done|]. simpl. apply last_snoc. Qed.

Lemma head_rev (l : str) : head (rev l) = last l.
Proof. by rewrite <- (rev_involutive l) at 2; rewrite last_rev. Qed.

Lemma strip_ends (x : str) (c : char) :
  head (strip x) = Some c \/ last (strip x) = Some c -> is_space c = false.
Proof.
  unfold strip. intros [H|H].
  - destruct (lstrip_head x) as [Hx|(c' & t & Hx & Hc)]; rewrite Hx in H.
    + done.
    + rewrite rstrip_cons_nonspace in H by done. by injection H as <-.
  - unfold rstrip in H. rewrite last_rev in H. by apply head_lstrip in H.
Qed.

Lemma lstrip_nil (x : str) : lstrip x = [] <-> forallb is_space x = true.
Proof.
  induction x as [|c t IH]; [done|]. simpl.
  destruct (is_space c); [done|]. split; done.
Qed.

Lemma strip_nil (x : str) : strip x = [] <-> forallb is_space x = true.
Proof.
  rewrite <- lstrip_nil. unfold strip.
  destruct (lstrip_head x) as [->|(c & t & -> & Hc)]; [done|].
  rewrite rstrip_cons_nonspace by done. split; done.
Qed.

(** X2: the answer neither begins nor ends with a whitespace
    character, and it is empty exactly when nothing but whitespace
    stands in front of the first marker. *)
Theorem extract_is_trimmed (s : str) :
  (forall c, head (extract_answer_without_sources s) = Some c ->
             is_space c = false)
  /\ (forall c, last (extract_answer_without_sources s) = Some c ->
                is_space c = false)
  /\ (extract_answer_without_sources s = []
      <-> forallb is_space (before MARKER s) = true).
Proof.
  rewrite extract_before. split; [|split].
  - intros c H. apply (strip_ends (before MARKER s)). by left.
  - intros c H. apply (strip_ends (before MARKER s)). by right.
  - apply strip_nil.
Qed.

Lemma startswith_long (sep x y : str) :
  (length sep <= length x)%nat ->
  startswith sep (x ++ y) = startswith sep x.
Proof.
  revert x. induction sep as [|a sep IH]; intros [|b x] Hlen; try done.
  - simpl in Hlen. lia.
  - simpl. rewrite IH; [done|]. simpl in Hlen. lia.
Qed.

Lemma before_app_sep (sep a b : str) :
  sep <> [] -> before sep (a ++ sep ++ b) = before sep (a ++ sep).
Proof.
  intros Hsep. induction a as [|c a IH].
  - rewrite !app_nil_l. rewrite before_hit by done.
    by rewrite <- (app_nil_r sep) at 2; rewrite before_hit.
  - change ((c :: a) ++ ?z) with (c :: (a ++ z)). rewrite !before_cons, IH.
    rewrite (app_assoc a sep b), app_comm_cons.
    rewrite startswith_long; [done|]. simpl. rewrite length_app. lia.
Qed.

(** X3: what follows the first SOURCES: marker has no influence on the
    answer. *)
Theorem extract_ignores_text_after_marker (a b b' : str) :
  extract_answer_without_sources (a ++ MARKER ++ b)
  = extract_answer_without_sources (a ++ MARKER ++ b').
Proof.
  rewrite !extract_before. f_equal.
  by rewrite (before_app_sep MARKER a b), (before_app_sep MARKER a b').
Qed.

(** The marker cannot start inside a text and end inside a marker put
    after it. *)
Lemma MARKER_no_straddle (x : str) :
  x <> [] -> startswith MARKER (x ++ MARKER) = startswith MARKER x.
Proof.
  intros Hx.
  destruct x as [|c1 [|c2 [|c3 [|c4 [|c5 [|c6 [|c7 [|c8 x]]]]]]]];
    [done|..|done];
    unfold MARKER; simpl;
    repeat (destruct (_ =? _)%N; [|done]); done.
Qed.

Lemma before_marker_text (a : str) :
  contains MARKER a = false -> before MARKER (a ++ MARKER) = a.
Proof.
  induction a as [|c a IH]; [done|].
  rewrite contains_cons. intros [Hsw Hc]%orb_false_elim.
  change ((c :: a) ++ MARKER) with (c :: (a ++ MARKER)).
  rewrite before_cons.
  change (c :: (a ++ MARKER)) with ((c :: a) ++ MARKER).
  rewrite MARKER_no_straddle, Hsw by done. simpl. by rewrite IH.
Qed.

(** X4: for a text without the marker, followed by the marker and
    anything, the answer is that text, trimmed. *)
Theorem extract_text_before_marker (a b : str) :
  contains MARKER a = false ->
  extract_answer_without_sources (a ++ MARKER ++ b) = strip a.
Proof.
  intros Ha. rewrite extract_before, before_app_sep by done.
  by rewrite before_marker_text.
Qed.

Lemma extract_text_before_marker_witness :
  contains MARKER (of_string " Yes. ") = false
  /\ extract_answer_without_sources
       (of_string " Yes. " ++ MARKER ++ of_string " p. 1")
     = strip (of_string " Yes. ").
Proof.
  split; [by vm_compute|].
  apply extract_text_before_marker. by vm_compute.
Defined.

Lemma nl_to_sp_trans (x y z : str) :
  Forall2 nl_to_sp x y -> Forall2 nl_to_sp y z -> Forall2 nl_to_sp x z.
Proof.
  intros Hxy. revert z. induction Hxy as [|a b x y Hab _ IH]; intros z Hyz.
  - by inversion Hyz.
  - inversion Hyz as [|? c ? z' Hbc Hyz']; subst. constructor; [|by apply IH].
    destruct Hab as [->|[-> ->]]; [done|].
    destruct Hbc as [<-|[? _]]; [by right|done].
Qed.

Lemma replace_id (old new s : str) :
  old <> [] -> contains old s = false -> replace old new s = s.
Proof.
  intros Hold. revert s.
  apply (replace_cases old new
           (fun s r => contains old s = false -> r = s)); [done|done|..].
  - intros r _ H. by rewrite contains_hit in H.
  - intros c t _ IH. rewrite contains_cons.
    intros [_ H]%orb_false_elim. by rewrite IH.
Qed.

Lemma contains_longer (sub a b s : str) :
  contains sub s = false -> contains (a ++ sub ++ b) s = false.
Proof.
  intros H. destruct (contains (a ++ sub ++ b) s) eqn:Hc; [|done].
  exfalso. revert H Hc. induction s as [|c t IH].
  - rewrite !(contains_unfold _ []), !orb_false_r. intros H Hc.
    destruct a; [destruct sub; done|done].
  - rewrite !contains_cons. intros [H1 H2]%orb_false_elim [Hc|Hc]%orb_prop.
    + apply startswith_inv in Hc.
      assert (contains sub (c :: t) = true) as Ht.
      { rewrite Hc, <- !app_assoc. apply contains_app_r, contains_hit. }
      rewrite contains_cons, H1, H2 in Ht. done.
    + by apply IH.
Qed.

(** X5: the two replacements of lines 118-119 keep the length of the
    response and change nothing but newlines into spaces; a response
    without the marker is not changed at all. *)
Theorem normalisation_only_turns_newlines_into_spaces (s : str) :
  let normalized_answer :=
    replace (MARKER ++ [NL]) (MARKER ++ [SP])
      (replace (NL :: MARKER) (SP :: MARKER) s) in
  length normalized_answer = length s
  /\ Forall2 nl_to_sp s normalized_answer
  /\ (contains MARKER s = false -> normalized_answer = s).
Proof.
  intros n.
  assert (Forall2 nl_to_sp s n) as Hn.
  { eapply nl_to_sp_trans; apply replace_nl_to_sp; try done.
    - constructor; [by right|apply nl_to_sp_refl].
    - apply Forall2_app; [apply nl_to_sp_refl|].
      constructor; [by right|constructor]. }
  split; [symmetry; by eapply Forall2_length|]. split; [done|].
  intros Hs. unfold n.
  rewrite (replace_id (NL :: MARKER)); [|done|].
  - rewrite replace_id; [done|done|].
    by apply (contains_longer MARKER [] [NL]).
  - by apply (contains_longer MARKER [NL] []).
Qed.

(** ** More about the citations *)

Lemma rmap_app_inl {A B : Type} (f : A -> result B) (ok : list A) (bad : A)
    (rest : list A) (e : exn) :
  Forall (fun a => exists b, f a = inr b) ok -> f bad = inl e ->
  rmap f (ok ++ bad :: rest) = inl e.
Proof.
  intros Hok Hbad. induction Hok as [|a ok [b Hb] _ IH]; simpl.
  - by rewrite Hbad.
  - by rewrite Hb, IH.
Qed.

Section MoreCitations.

Context {pyval : Type} (py_int : pyval -> result Z).

(** X6: the cited pages depend only on which page numbers the sources
    carry: results whose sources have the same page numbers, in any
    order and with any repetitions, get the same pages. *)
Theorem citations_ignore_order_and_repeats
    (res res' : AnswerWithSources pyval) (ints ints' : list Z) :
  Forall2 (page_of py_int) (sources res) ints ->
  Forall2 (page_of py_int) (sources res') ints' ->
  (forall z, z ∈ ints <-> z ∈ ints') ->
  exists pages,
    citation_pages py_int res = inr pages
    /\ citation_pages py_int res' = inr pages.
Proof.
  intros H H' Hsame. exists (sorted (list_to_set ints)).
  rewrite (citation_pages_inr py_int res ints H).
  rewrite (citation_pages_inr py_int res' ints' H').
  assert (list_to_set ints = (list_to_set ints' : gset Z)) as ->; [|done].
  apply leibniz_equiv, set_equiv. intros z.
  by rewrite !elem_of_list_to_set.
Qed.

(** X7: the cited pages are pairwise different, there are never more
    of them than sources, and there is none exactly when there is no
    source. *)
Theorem citations_are_at_most_the_sources
    (res : AnswerWithSources pyval) (pages : list Z) :
  citation_pages py_int res = inr pages ->
  NoDup pages
  /\ (length pages <= length (sources res))%nat
  /\ (pages = [] <-> sources res = []).
Proof.
  intros (ints & Hints & ->)%citation_pages_inv.
  destruct (sorted_spec (list_to_set ints)) as [Hsorted Hmem].
  assert (NoDup (sorted (list_to_set ints))) as Hnd.
  { unfold sorted. rewrite merge_sort_Permutation. apply NoDup_elements. }
  split; [done|]. split.
  - rewrite (Forall2_length _ _ _ Hints).
    apply submseteq_length, NoDup_submseteq; [done|].
    intros z Hz. by apply Hmem, elem_of_list_to_set in Hz.
  - split.
    + intros Hnil. destruct Hints as [|source z srcs ints Hz Hints]; [done|].
      assert (z ∈ sorted (list_to_set (z :: ints))) as Hin
        by (apply Hmem, elem_of_list_to_set; left).
      rewrite Hnil in Hin. by apply elem_of_nil in Hin.
    + intros Hnil. rewrite Hnil in Hints. by inversion Hints.
Qed.

(** X8: when the sources in front of a chunk all have a page that
    [int] accepts, the chunk decides how line 137 fails: without a
    "page" key the exception is KeyError("page"), and with a page that
    [int] refuses it is the exception of [int]. *)
Theorem first_chunk_without_page_decides_the_error
    (res : AnswerWithSources pyval) (ok : list (Document pyval))
    (bad : Document pyval) (rest : list (Document pyval)) :
  sources res = ok ++ bad :: rest ->
  Forall (fun source => exists z, page_of py_int source z) ok ->
  (metadata bad !! of_string "page" = None ->
   citation_pages py_int res = inl (KeyError (of_string "page")))
  /\ (forall v e,
        metadata bad !! of_string "page" = Some v -> py_int v = inl e ->
        citation_pages py_int res = inl e).
Proof.
  intros Hsrc Hok.
  assert (forall e,
            rbind (getitem (metadata bad) (of_string "page")) py_int = inl e ->
            citation_pages py_int res = inl e) as Hgen.
  { intros e He. unfold citation_pages. rewrite Hsrc.
    rewrite (rmap_app_inl _ ok bad rest e); [done| |done].
    eapply Forall_impl; [exact Hok|].
    intros source (z & v & Hv & Hz). exists z. unfold getitem.
    by rewrite Hv. }
  split.
  - intros Hnone. apply Hgen. unfold getitem. by rewrite Hnone.
  - intros v e Hv He. apply Hgen. unfold getitem. by rewrite Hv.
Qed.

End MoreCitations.

(** ** More about the handler *)

Section MoreHandler.

Context {pyval : Type} (py_int : pyval -> result Z).
Context {FolderIndex LLM : Type}.
Context (get_llm : str -> str -> Qc -> result LLM).
Context (query_folder :
  FolderIndex -> str -> bool -> LLM -> result (AnswerWithSources pyval)).
Context (folder_index : FolderIndex) (model openai_api_key : str).
Context (return_all_chunks : bool).

Local Abbreviation handler :=
  (chat_input_handler py_int get_llm query_folder folder_index model
     openai_api_key return_all_chunks).

Local Abbreviation succeed :=
  (steps_succeed_with py_int get_llm query_folder folder_index model
     openai_api_key return_all_chunks).

Lemma handler_failed_get_llm (query : str) e s :
  query <> [] ->
  get_llm model openai_api_key TEMPERATURE = inl e ->
  handler (Some query) s = (asked query s, inl (Raise e)).
Proof.
  intros Hq Hllm. destruct query as [|c q]; [done|].
  unfold chat_input_handler, bind, call, append_message, show.
  simpl. by rewrite Hllm.
Qed.

(** The ways the handler can go on a question. *)
Lemma handler_question_cases (query : str) s :
  query <> [] ->
  (exists e,
     handler (Some query) s = (asked query s, inl (Raise e))
     /\ forall reply, ~ succeed query reply)
  \/ (exists reply,
        succeed query reply
        /\ handler (Some query) s
           = if has_surrogate reply
             then (committed_unshown query reply s,
                   inl (Raise (UnicodeEncodeError reply)))
             else (answered query reply s, inr tt)).
Proof.
  intros Hq.
  destruct (get_llm model openai_api_key TEMPERATURE) as [e|llm] eqn:Hllm.
  { left. exists e. split; [by apply handler_failed_get_llm|].
    intros reply (llm & res & pages & citation & ? & _). congruence. }
  destruct (query_folder folder_index query return_all_chunks llm)
    as [e|res] eqn:Hqf.
  { left. exists e.
    split; [by apply (handler_query_fails py_int get_llm query_folder
                        folder_index model openai_api_key
                        return_all_chunks query llm)|].
    intros reply (llm' & res & pages & citation & ? & ? & _). congruence. }
  destruct (citation_pages py_int res) as [e|pages] eqn:Hc.
  { left. exists e.
    split; [by apply (handler_citations_fail py_int get_llm query_folder
                        folder_index model openai_api_key
                        return_all_chunks query llm res)|].
    intros reply (llm' & res' & pages & citation & ? & ? & ? & _).
    congruence. }
  destruct (citation_string pages) as [e|citation] eqn:Hs.
  { left. exists e.
    split; [by apply (handler_numerals_fail py_int get_llm query_folder
                        folder_index model openai_api_key
                        return_all_chunks query llm res pages)|].
    intros reply (llm' & res' & pages' & citation & ? & ? & ? & ? & _).
    congruence. }
  right. exists (assemble_answer res citation). split.
  - by exists llm, res, pages, citation.
  - by apply (handler_commits py_int get_llm query_folder folder_index
                model openai_api_key return_all_chunks query llm res pages).
Qed.

Lemma handler_appends chat_input s :
  exists added displayed,
    messages (handler chat_input s).1 = messages s ++ added
    /\ screen (handler chat_input s).1 = screen s ++ map bubble displayed
    /\ (((handler chat_input s).2 = inr tt
         /\ displayed = added
         /\ (added = []
             \/ exists query reply,
                  added = [ {| turn_role := user; content := query |};
                            {| turn_role := assistant; content := reply |} ]))
        \/ (exists e query,
              (handler chat_input s).2 = inl (Raise e)
              /\ added = [ {| turn_role := user; content := query |} ]
              /\ displayed = added)
        \/ (exists query reply,
              (handler chat_input s).2
              = inl (Raise (UnicodeEncodeError reply))
              /\ has_surrogate reply = true
              /\ added = [ {| turn_role := user; content := query |};
                           {| turn_role := assistant; content := reply |} ]
              /\ displayed = [ {| turn_role := user; content := query |} ])).
Proof.
  assert (forall o, o = None \/ o = Some [] ->
            exists added displayed,
              messages (handler o s).1 = messages s ++ added
              /\ screen (handler o s).1 = screen s ++ map bubble displayed
              /\ (handler o s).2 = inr tt /\ displayed = added /\ added = [])
    as Hnone.
  { intros o [-> | ->]; exists [], []; simpl; by rewrite !app_nil_r. }
  destruct chat_input as [query|].
  - destruct (decide (query = [])) as [->|Hq].
    { destruct (Hnone (Some [])) as (added & displayed & ? & ? & ? & ? & ?);
        [by right|].
      exists added, displayed. split; [done|]. split; [done|].
      left. split; [done|]. split; [done|by left]. }
    destruct (handler_question_cases query s Hq) as
      [(e & Hrun & _)|(reply & _ & Hrun)]; rewrite Hrun.
    + exists [{| turn_role := user; content := query |}], [{| turn_role := user; content := query |}].
      split; [done|]. split; [done|].
      right. left. by exists e, query.
    + destruct (has_surrogate reply) eqn:Hw.
      * exists [{| turn_role := user; content := query |};
                {| turn_role := assistant; content := reply |}],
          [{| turn_role := user; content := query |}].
        split; [done|]. split; [done|].
        right. right. by exists query, reply.
      * exists [{| turn_role := user; content := query |};
                {| turn_role := assistant; content := reply |}],
          [{| turn_role := user; content := query |};
           {| turn_role := assistant; content := reply |}].
        split; [done|]. split; [done|].
        left. split; [done|]. split; [done|]. right. by exists query, reply.
  - destruct (Hnone None) as (added & displayed & ? & ? & ? & ? & ?); [by left|].
    exists added, displayed. split; [done|]. split; [done|].
    left. split; [done|]. split; [done|by left].
Qed.


(** X10: on a question the answer is committed exactly when get_llm,
    query_folder, the page numbers and their numerals all succeed, and
    the answer committed is the one assembled from them; the handler
    completes exactly when, in addition, the answer can be written (it
    has no lone surrogate).  When a step fails, only the question is
    committed and shown, and the handler ends with the exception. *)
Theorem answer_committed_iff_every_step_succeeds (query : str) s :
  query <> [] ->
  (forall reply,
     messages (handler (Some query) s).1
     = messages s ++ [ {| turn_role := user; content := query |};
                       {| turn_role := assistant; content := reply |} ]
     <-> succeed query reply)
  /\ ((handler (Some query) s).2 = inr tt
      <-> exists reply,
            succeed query reply /\ has_surrogate reply = false)
  /\ ((forall reply, ~ succeed query reply) ->
      exists e, handler (Some query) s = (asked query s, inl (Raise e))).
Proof.
  intros Hq.
  assert (forall r r', succeed query r ->
                       succeed query r' -> r = r') as Huniq.
  { intros r r' (llm & res & pages & citation & H1 & H2 & H3 & H4 & ->)
      (llm' & res' & pages' & citation' & H1' & H2' & H3' & H4' & ->).
    congruence. }
  destruct (handler_question_cases query s Hq)
    as [(e & Hrun & Hno)|(reply & Hyes & Hrun)]; rewrite Hrun.
  - split; [|split].
    + intros reply. split; [|by intros ?%Hno]. simpl.
      intros H%app_inv_head. done.
    + split; [done|]. by intros (reply & ?%Hno & _).
    + intros _. by exists e.
  - split; [|split].
    + intros reply'. split.
      * intros H. assert (reply' = reply) as ->; [|done].
        destruct (has_surrogate reply); simpl in H;
          apply app_inv_head in H; congruence.
      * intros H. rewrite (Huniq _ _ H Hyes).
        by destruct (has_surrogate reply).
    + split.
      * intros H. exists reply. split; [done|].
        by destruct (has_surrogate reply).
      * intros (reply' & H & Hw). rewrite (Huniq _ _ Hyes H), Hw. done.
    + intros Hno. by destruct (Hno reply).
Qed.

End MoreHandler.
(** ** More about the upload pipeline *)

Section MorePipeline.

Context {pyval FolderIndex : Type}.
Context (read_file : UploadedFile -> result (File pyval)).
Context (display_file_read_error : exn -> str -> M unit).
Context (chunk_file : File pyval -> Z -> Z -> result (File pyval)).
Context (is_file_valid : File pyval -> bool).
Context (is_open_ai_key_valid : str -> str -> bool).
Context (embed_files :
  list (File pyval) -> str -> str -> str -> result FolderIndex).

Local Abbreviation pipeline :=
  (upload_pipeline read_file display_file_read_error chunk_file
     is_file_valid is_open_ai_key_valid embed_files).

Lemma read_loop_all_read ups fs files file s :
  Forall2 (fun u f => read_file u = inr f) ups fs ->
  read_loop read_file display_file_read_error ups files file s
  = (s, inr (files ++ fs, match last fs with Some f => Some f | None => file end)).
Proof.
  intros H. revert files file.
  induction H as [|u f ups fs Hu _ IH]; intros files file.
  - simpl. by rewrite app_nil_r.
  - cbn [read_loop]. rewrite Hu, IH, <- app_assoc. do 3 f_equal.
    rewrite last_cons. by destruct (last fs).
Qed.

(** X11: how the pipeline ends when every uploaded file is read.  An
    exception of the chunker ends the run there, with nothing shown,
    also for an upload that validation would refuse, since the files
    are chunked before they are validated.  Otherwise the run stops
    unless the last file and the key are valid, and then it ends as
    embed_files does. *)
Theorem pipeline_when_every_file_is_read ups files f model key s :
  Forall2 (fun u file => read_file u = inr file) ups (files ++ [f]) ->
  (forall e,
     rmap (fun file => chunk_file file 300 0) (files ++ [f]) = inl e ->
     pipeline ups model key s = (s, inl (Raise e)))
  /\ (forall chunked,
        rmap (fun file => chunk_file file 300 0) (files ++ [f])
        = inr chunked ->
        (pipeline ups model key s).2
        = if is_file_valid f && is_open_ai_key_valid key model
          then match embed_files chunked (kind_for EMBEDDING model)
                       (kind_for VECTOR_STORE model) key with
               | inl e => inl (Raise e)
               | inr index => inr index
               end
          else inl Stop).
Proof.
  intros Hread.
  assert (ups <> []) as Hups.
  { intros ->. apply Forall2_length in Hread.
    rewrite length_app in Hread. simpl in Hread. lia. }
  pose proof (read_loop_all_read ups (files ++ [f]) [] None s Hread) as Hloop.
  rewrite last_snoc, app_nil_l in Hloop.
  unfold upload_pipeline. destruct ups as [|u rest]; [done|].
  unfold bind, call, variable, ret, st_stop. rewrite Hloop. cbn [fst snd].
  split.
  - intros e He. by rewrite He.
  - intros chunked Hc. rewrite Hc.
    destruct (is_file_valid f); [|done].
    destruct (is_open_ai_key_valid key model); [|done]. simpl.
    by destruct (embed_files _ _ _ _).
Qed.

(** X12: when no uploaded file can be read and the display of the read
    errors returns each time, line 74 reads the variable [file] before
    it was ever assigned, and the run ends with NameError. *)
Theorem unread_upload_ends_in_name_error ups model key s :
  ups <> [] ->
  Forall (fun u => exists e, read_file u = inl e) ups ->
  (forall e file_name s0,
     exists s1, display_file_read_error e file_name s0 = (s1, inr tt)) ->
  exists s',
    pipeline ups model key s
    = (s', inl (Raise (NameError (of_string "file")))).
Proof.
  intros Hups Hfail Hret.
  assert (forall files file s0,
            exists s1,
              read_loop read_file display_file_read_error ups files file s0
              = (s1, inr (files, file))) as Hloop.
  { clear Hups. induction Hfail as [|u ups' [e He] _ IH]; intros files file s0.
    - by exists s0.
    - destruct (Hret e (name u) s0) as [s1 Hs1].
      destruct (IH files file s1) as [s2 Hs2]. exists s2.
      cbn [read_loop]. rewrite He. unfold bind. by rewrite Hs1. }
  destruct (Hloop [] None s) as [s' Hs'].
  exists s'. unfold upload_pipeline. destruct ups as [|u rest]; [done|].
  unfold bind at 1. by rewrite Hs'.
Qed.

(** X13: an index is built only when at least one file was read, the
    file read last passes is_file_valid, and the key passes
    is_open_ai_key_valid. *)
Theorem index_needs_valid_last_file_and_key ups model key s s' index :
  pipeline ups model key s = (s', inr index) ->
  exists f,
    last (read_ok read_file ups) = Some f
    /\ is_file_valid f = true
    /\ is_open_ai_key_valid key model = true.
Proof.
  intros (chunked & f & _ & Hlast & Hv & Hk & _)%upload_pipeline_built.
  by exists f.
Qed.

End MorePipeline.

Section MoreReadErrors.

Context {pyval FolderIndex : Type}.
Context (read_file : UploadedFile -> result (File pyval)).
Context (chunk_file : File pyval -> Z -> Z -> result (File pyval)).
Context (is_file_valid : File pyval -> bool).
Context (is_open_ai_key_valid : str -> str -> bool).
Context (embed_files :
  list (File pyval) -> str -> str -> str -> result FolderIndex).

Lemma read_loop_terminal_returns ups files file s s' r :
  read_loop read_file SpecModel.display_file_read_error ups files file s
  = (s', inr r) ->
  s' = s
  /\ exists fs,
       Forall2 (fun u f => read_file u = inr f) ups fs
       /\ r.1 = files ++ fs.
Proof.
  revert files file. induction ups as [|u ups IH]; intros files file.
  - simpl. unfold ret. intros [= <- <-]. split; [done|].
    exists []. split; [constructor|]. by rewrite app_nil_r.
  - cbn [read_loop]. destruct (read_file u) as [e|f] eqn:Hu; [done|].
    intros [-> (fs & Hfs & ->)]%IH. split; [done|].
    exists (f :: fs). split; [by constructor|]. by rewrite <- app_assoc.
Qed.

(** X14: with the error display of the spec, which stops the run, an
    index that is built is built from all uploaded files: each was
    read and chunked, and nothing was shown on the way. *)
Theorem index_is_built_from_every_upload ups model key s s' index :
  upload_pipeline read_file SpecModel.display_file_read_error chunk_file
    is_file_valid is_open_ai_key_valid embed_files ups model key s
  = (s', inr index) ->
  s' = s
  /\ exists files chunked,
       Forall2 (fun u file => read_file u = inr file) ups files
       /\ Forall2 (fun file c => chunk_file file 300 0 = inr c) files chunked
       /\ embed_files chunked (kind_for EMBEDDING model)
            (kind_for VECTOR_STORE model) key = inr index.
Proof.
  unfold upload_pipeline. destruct ups as [|u rest]; [done|].
  unfold bind at 1.
  destruct (read_loop _ _ _ _ _ s) as [s1 [h|read]] eqn:Hr; [done|].
  apply read_loop_terminal_returns in Hr as [-> (files & Hfiles & Hread)].
  rewrite app_nil_l in Hread. rewrite Hread.
  unfold bind, call, variable, ret, st_stop.
  destruct (rmap _ files) as [e|chunked] eqn:Hc; [done|].
  apply rmap_inr in Hc.
  destruct read.2 as [f|]; [|done].
  destruct (is_file_valid f); [|done].
  destruct (is_open_ai_key_valid key model); [|done]. cbv beta iota.
  destruct (embed_files _ _ _ _) as [e|index'] eqn:He; [done|].
  intros [= <- <-]. split; [done|]. by exists files, chunked.
Qed.

End MoreReadErrors.

(** ** The session at the start of the chat *)

Lemma lookup_foldr_delete (m : gmap str session_value) (l : list str)
    (k : str) :
  foldr delete m l !! k = if decide (k ∈ l) then None else m !! k.
Proof.
  induction l as [|k' l IH]; cbn [foldr].
  - destruct (decide (k ∈ [])) as [Hin|]; [|done].
    by apply elem_of_nil in Hin.
  - destruct (decide (k' = k)) as [->|Hne].
    + rewrite lookup_delete_eq.
      destruct (decide (k ∈ k :: l)) as [|Hnin]; [done|].
      destruct Hnin. left.
    + rewrite lookup_delete_ne, IH by done.
      destruct (decide (k ∈ l)) as [Hin|Hnin];
        destruct (decide (k ∈ k' :: l)) as [Hin'|Hnin']; try done.
      * destruct Hnin'. by right.
      * apply elem_of_cons in Hin' as [?|?]; congruence.
Qed.

Lemma foldr_delete_all (m : gmap str session_value) :
  foldr delete m (elements (dom m)) = ∅.
Proof.
  apply map_eq. intros k. rewrite lookup_foldr_delete, lookup_empty.
  destruct (decide (k ∈ elements (dom m))) as [|Hnin]; [done|].
  apply not_elem_of_dom. by rewrite <- elem_of_elements.
Qed.

Lemma reset_chat_eq (session : gmap str session_value) :
  reset_chat session
  = <[HISTORY := Turns []]> (<[MESSAGES := Turns INITIAL_MESSAGE]> ∅).
Proof. unfold reset_chat. by rewrite foldr_delete_all. Qed.

(** X15: after the reset of lines 103-106 the session holds exactly
    the keys "messages" and "history", the greeting under the one and
    the empty list under the other, whatever it held before. *)
Theorem reset_discards_the_session (session : gmap str session_value) :
  messages_of (reset_chat session) = inr INITIAL_MESSAGE
  /\ reset_chat session !! HISTORY = Some (Turns [])
  /\ dom (reset_chat session) = {[MESSAGES; HISTORY]}.
Proof.
  rewrite reset_chat_eq.
  split; [by vm_compute|]. split; [by vm_compute|].
  rewrite !dom_insert_L, dom_empty_L. set_solver.
Qed.

(** X16: after lines 108-109 the session has a "messages" entry: the
    one it had, in which case nothing changes, or else the greeting;
    the other keys are untouched and doing it twice is the same as
    doing it once. *)
Theorem ensure_messages_keeps_what_is_there
    (session : gmap str session_value) :
  (exists v, ensure_messages session !! MESSAGES = Some v)
  /\ (forall v, session !! MESSAGES = Some v -> ensure_messages session = session)
  /\ (session !! MESSAGES = None ->
      messages_of (ensure_messages session) = inr INITIAL_MESSAGE)
  /\ (forall k, k <> MESSAGES -> ensure_messages session !! k = session !! k)
  /\ ensure_messages (ensure_messages session) = ensure_messages session.
Proof.
  unfold ensure_messages.
  destruct (session !! MESSAGES) as [v|] eqn:Hm.
  - rewrite Hm. split; [by exists v|]. split; [done|]. split; [done|].
    split; done.
  - rewrite lookup_insert_eq. split; [by eexists|]. split; [done|].
    split; [intros _; unfold messages_of; by rewrite lookup_insert_eq|].
    split; [|done]. intros k Hk. by rewrite lookup_insert_ne.
Qed.

(** A stored conversation without lone surrogates is replayed in full. *)
Lemma replay_clean (l : list turn) (s : state) :
  Forall (fun message => has_surrogate (content message) = false) l ->
  replay l s
  = ({| messages := messages s; screen := screen s ++ map bubble l |},
     inr tt).
Proof.
  intros H. revert s. induction H as [|message l Hm _ IH]; intros s.
  - simpl. unfold ret. rewrite app_nil_r. by destruct s.
  - destruct message as [r text]. cbn [content] in Hm.
    cbn [replay turn_role content map]. unfold bind, st_write, show.
    rewrite Hm. destruct r; rewrite IH; cbn [fst snd messages screen];
      by rewrite <- app_assoc.
Qed.

(** The replay shows the messages in order up to the first one that
    cannot be written, and ends there with its UnicodeEncodeError. *)
Lemma replay_cases (l : list turn) (s : state) :
  exists displayed hidden,
    l = displayed ++ hidden
    /\ (replay l s).1
       = {| messages := messages s;
            screen := screen s ++ map bubble displayed |}
    /\ ((hidden = [] /\ (replay l s).2 = inr tt)
        \/ (exists message rest,
              hidden = message :: rest
              /\ has_surrogate (content message) = true
              /\ (replay l s).2
                 = inl (Raise (UnicodeEncodeError (content message))))).
Proof.
  revert s. induction l as [|message l IH]; intros s.
  - exists [], []. simpl. rewrite app_nil_r. split; [done|].
    split; [by destruct s|by left].
  - destruct (has_surrogate (content message)) eqn:Hm.
    + exists [], (message :: l). split; [done|].
      cbn [replay]. unfold bind, st_write, call. rewrite Hm.
      destruct (turn_role message); simpl; rewrite app_nil_r;
        (split; [by destruct s|]); right; by exists message, l.
    + destruct (IH {| messages := messages s;
                      screen := screen s ++ [bubble message] |})
        as (displayed & hidden & -> & Hs & Hout).
      exists (message :: displayed), hidden. split; [done|].
      assert (replay (message :: displayed ++ hidden) s
              = replay (displayed ++ hidden)
                  {| messages := messages s;
                     screen := screen s ++ [bubble message] |}) as ->.
      { cbn [replay]. unfold bind, st_write, show, bubble. rewrite Hm.
        by destruct (turn_role message). }
      rewrite Hs. simpl. rewrite <- app_assoc. split; [done|]. exact Hout.
Qed.

Section MoreChat.

Context {pyval : Type} (py_int : pyval -> result Z) (py_str : pyval -> str).
Context {FolderIndex LLM : Type}.
Context (get_llm : str -> str -> Qc -> result LLM).
Context (query_folder :
  FolderIndex -> str -> bool -> LLM -> result (AnswerWithSources pyval)).
Context (folder_index : FolderIndex) (model openai_api_key : str).
Context (return_all_chunks : bool).

Local Abbreviation handler :=
  (chat_input_handler py_int get_llm query_folder folder_index model
     openai_api_key return_all_chunks).
Local Abbreviation block :=
  (chat_input_block py_int py_str get_llm query_folder folder_index model
     openai_api_key return_all_chunks).
Local Abbreviation ask :=
  (answer_question py_int get_llm query_folder folder_index model
     openai_api_key return_all_chunks).

(** The handler is [answer_question] with its value forgotten. *)
Lemma handler_answer_question (query : str) s :
  query <> [] ->
  handler (Some query) s
  = match ask query s with
    | (s', inl h) => (s', inl h)
    | (s', inr _) => (s', inr tt)
    end.
Proof.
  intros Hq. destruct query as [|c q]; [done|].
  unfold chat_input_handler, answer_question, bind, call, append_message,
    st_write, show, ret. simpl.
  destruct (get_llm _ _ _) as [e|llm]; [done|].
  destruct (query_folder _ _ _ _) as [e|res]; [done|].
  destruct (citation_pages py_int res) as [e|pages]; [done|].
  destruct (citation_string pages) as [e|citation]; [done|].
  by destruct (has_surrogate _).
Qed.

Lemma answer_question_value (query : str) s s' res :
  ask query s = (s', inr res) ->
  exists llm,
    get_llm model openai_api_key TEMPERATURE = inr llm
    /\ query_folder folder_index query return_all_chunks llm = inr res.
Proof.
  unfold answer_question, bind, call, append_message, st_write, show, ret.
  simpl.
  destruct (get_llm _ _ _) as [e|llm]; [done|].
  destruct (query_folder _ _ _ _) as [e|res'] eqn:Hqf; [done|].
  destruct (citation_pages py_int res'); [done|].
  destruct (citation_string _); [done|].
  destruct (has_surrogate _); [done|].
  intros [= <- <-]. by exists llm.
Qed.

(** The sidebar loop ends normally or with KeyError("source"). *)
Lemma sources_sidebar_outcome (srcs : list (Document pyval)) :
  (sources_sidebar py_str srcs).2 = inr tt
  \/ (sources_sidebar py_str srcs).2 = inl (KeyError SOURCE).
Proof.
  induction srcs as [|source srcs IH]; [by left|].
  cbn [sources_sidebar]. unfold source_try, st_markdown, st_markdown_value,
    getitem.
  destruct (has_surrogate (utf8_ignore _)); [done|].
  destruct (metadata source !! SOURCE) as [v|]; [|by right].
  by destruct (has_surrogate (py_str v)).
Qed.

Lemma block_after_handler chat_input s :
  (block chat_input s).1.1 = (handler chat_input s).1
  /\ (forall h, (handler chat_input s).2 = inl h ->
                (block chat_input s).2 = inl h
                /\ (block chat_input s).1.2 = [])
  /\ ((handler chat_input s).2 = inr tt ->
      (block chat_input s).2 = inr tt
      \/ (block chat_input s).2 = inl (Raise (KeyError SOURCE))).
Proof.
  destruct chat_input as [query|];
    [|split; [done|]; split; [done|]; by left].
  destruct (decide (query = [])) as [->|Hq];
    [split; [done|]; split; [done|]; by left|].
  rewrite handler_answer_question by done.
  unfold chat_input_block. destruct query as [|c q]; [done|].
  destruct (ask (c :: q) s) as [s' [h|res]] eqn:Hask.
  - split; [done|]. split; [by intros h' [= <-]|done].
  - split; [done|]. split; [done|]. intros _. simpl.
    destruct (sources_sidebar_outcome (sources res)) as [-> | ->];
      [by left|by right].
Qed.

(** X20: the "Sources" sidebar of lines 153-162 leaves history and
    chat page as the handler left them.  When the handler ends with an
    exception the sidebar shows nothing; when it completes, the block
    completes or ends with KeyError("source"), the answer being
    committed already. *)
Theorem sidebar_comes_after_the_answer chat_input s :
  (block chat_input s).1.1 = (handler chat_input s).1
  /\ (forall h, (handler chat_input s).2 = inl h ->
                (block chat_input s).2 = inl h
                /\ (block chat_input s).1.2 = [])
  /\ ((handler chat_input s).2 = inr tt ->
      (block chat_input s).2 = inr tt
      \/ (block chat_input s).2 = inl (Raise (KeyError SOURCE))).
Proof. apply block_after_handler. Qed.

End MoreChat.

(** ** The sidebar *)

Lemma has_surrogate_utf8_ignore (s : str) :
  has_surrogate (utf8_ignore s) = false.
Proof.
  unfold has_surrogate, utf8_ignore, str.
  induction s as [|c s IH]; [done|]. rewrite filter_cons.
  destruct (decide (is_surrogate c = false)) as [Hc|]; [|done].
  simpl. by rewrite Hc, IH.
Qed.

Section MoreSidebar.

Context {pyval : Type} (py_str : pyval -> str).

Lemma source_try_labelled (source : Document pyval) (v : pyval) :
  metadata source !! SOURCE = Some v ->
  exists items,
    source_try py_str source = (items, inr tt)
    /\ items ++ [Markdown RULE] = source_entry py_str source v.
Proof.
  intros Hv. unfold source_try, st_markdown, st_markdown_value, getitem,
    source_entry.
  rewrite has_surrogate_utf8_ignore, Hv.
  destruct (has_surrogate (py_str v)); by eexists.
Qed.

Lemma sources_sidebar_labelled (srcs : list (Document pyval))
    (labels : list pyval) (rest : list (Document pyval)) :
  Forall2 (fun source v => metadata source !! SOURCE = Some v) srcs labels ->
  sources_sidebar py_str (srcs ++ rest)
  = (concat (zip_with (source_entry py_str) srcs labels)
     ++ (sources_sidebar py_str rest).1,
     (sources_sidebar py_str rest).2).
Proof.
  induction 1 as [|source v srcs labels Hv _ IH].
  - simpl. by destruct (sources_sidebar py_str rest).
  - change ((source :: srcs) ++ rest) with (source :: (srcs ++ rest)).
    cbn [sources_sidebar].
    destruct (source_try_labelled source v Hv) as (items & Htry & Hentry).
    rewrite Htry, IH. cbn [fst snd zip_with concat].
    by rewrite <- Hentry, <- !app_assoc.
Qed.

(** X21: when every source has a "source" entry the sidebar shows, for
    each source in order, three items: its content without surrogates,
    its "source" entry or, when that entry has a lone surrogate, the
    encoding error that the except clause of lines 160-161 reports, and
    a rule.  The loop completes. *)
Theorem sidebar_shows_three_items_per_source
    (srcs : list (Document pyval)) (labels : list pyval) :
  Forall2 (fun source v => metadata source !! SOURCE = Some v) srcs labels ->
  sources_sidebar py_str srcs
  = (concat (zip_with (source_entry py_str) srcs labels), inr tt)
  /\ length (sources_sidebar py_str srcs).1 = (3 * length srcs)%nat
  /\ (Forall (fun v => has_surrogate (py_str v) = false) labels ->
      (sources_sidebar py_str srcs).1
      = concat (zip_with
                  (fun source v =>
                     [Markdown (utf8_ignore (page_content source));
                      MarkdownValue v; Markdown RULE]) srcs labels)).
Proof.
  intros H. pose proof (sources_sidebar_labelled srcs labels [] H) as Hs.
  rewrite !app_nil_r in Hs. simpl in Hs. rewrite Hs. split; [done|].
  simpl. clear Hs. split.
  - induction H as [|source v srcs labels _ _ IH]; [done|].
    simpl. rewrite IH. lia.
  - intros Hclean. revert Hclean.
    induction H as [|source v srcs labels _ _ IH]; [done|].
    intros [Hv Hrest]%Forall_cons. cbn [zip_with concat].
    rewrite IH by done. unfold source_entry. by rewrite Hv.
Qed.

(** X22: at the first source without a "source" entry the sidebar has
    shown the three items of each source before it and the content of
    that source; it raises KeyError("source"), which the except clause
    does not catch, and shows nothing of the sources after it. *)
Theorem sidebar_stops_at_the_first_unlabelled_source
    (ok : list (Document pyval)) (labels : list pyval)
    (bad : Document pyval) (rest : list (Document pyval)) :
  Forall2 (fun source v => metadata source !! SOURCE = Some v) ok labels ->
  metadata bad !! SOURCE = None ->
  sources_sidebar py_str (ok ++ bad :: rest)
  = (concat (zip_with (source_entry py_str) ok labels)
     ++ [Markdown (utf8_ignore (page_content bad))],
     inl (KeyError SOURCE)).
Proof.
  intros Hok Hbad. rewrite (sources_sidebar_labelled ok labels _ Hok).
  cbn [sources_sidebar]. unfold source_try, st_markdown, getitem.
  by rewrite has_surrogate_utf8_ignore, Hbad.
Qed.

End MoreSidebar.

(** X23: the content shown in the sidebar has no surrogate code point,
    is the chunk content with the surrogates left out and the rest in
    order, and is the content itself when that has no surrogate. *)
Theorem utf8_ignore_drops_surrogates_only (s : str) :
  Forall (fun c => is_surrogate c = false) (utf8_ignore s)
  /\ (Forall (fun c => is_surrogate c = false) s -> utf8_ignore s = s)
  /\ utf8_ignore (utf8_ignore s) = utf8_ignore s
  /\ sublist (utf8_ignore s) s
  /\ (forall c, c ∈ utf8_ignore s <-> c ∈ s /\ is_surrogate c = false).
Proof.
  assert (forall (l : str), Forall (fun c => is_surrogate c = false) l ->
                    utf8_ignore l = l) as Hid.
  { intros l Hl. unfold utf8_ignore, str. induction l as [|c l IH]; [done|].
    apply Forall_cons in Hl as [Hc Hl]. rewrite filter_cons.
    destruct (decide (is_surrogate c = false)); [|done]. by rewrite IH. }
  assert (Forall (fun c => is_surrogate c = false) (utf8_ignore s)) as Hall.
  { unfold utf8_ignore. apply Forall_forall. intros c Hc.
    by apply list_elem_of_filter in Hc as [? _]. }
  split; [done|]. split; [apply Hid|]. split; [by apply Hid|].
  split; [apply sublist_filter|].
  intros c. unfold utf8_ignore. rewrite list_elem_of_filter. tauto.
Qed.

Section MoreSection.

Context {pyval : Type} (py_int : pyval -> result Z) (py_str : pyval -> str).
Context {FolderIndex LLM : Type}.
Context (get_llm : str -> str -> Qc -> result LLM).
Context (query_folder :
  FolderIndex -> str -> bool -> LLM -> result (AnswerWithSources pyval)).
Context (folder_index : FolderIndex) (model openai_api_key : str).
Context (return_all_chunks : bool).

Local Abbreviation handler :=
  (chat_input_handler py_int get_llm query_folder folder_index model
     openai_api_key return_all_chunks).
Local Abbreviation block :=
  (chat_input_block py_int py_str get_llm query_folder folder_index model
     openai_api_key return_all_chunks).
Local Abbreviation page reset :=
  (chat_section py_int py_str get_llm query_folder reset folder_index model
     openai_api_key return_all_chunks).

(** What the block adds to the history, and how much of it is on the
    page: all of it, unless the block ends with the UnicodeEncodeError
    of the first message left out. *)
Lemma block_appends chat_input s :
  exists added displayed hidden,
    added = displayed ++ hidden
    /\ messages (block chat_input s).1.1 = messages s ++ added
    /\ screen (block chat_input s).1.1 = screen s ++ map bubble displayed
    /\ (length added <= 2)%nat
    /\ (hidden = []
        \/ exists message rest,
             hidden = message :: rest
             /\ has_surrogate (content message) = true
             /\ (block chat_input s).2
                = inl (Raise (UnicodeEncodeError (content message)))).
Proof.
  destruct (block_after_handler py_int py_str get_llm query_folder
              folder_index model openai_api_key return_all_chunks
              chat_input s) as (Hstate & Hfail & _).
  rewrite Hstate.
  destruct (handler_appends py_int get_llm query_folder folder_index model
              openai_api_key return_all_chunks chat_input s)
    as (added & displayed & Hm & Hs &
        [(_ & -> & Hadded)
        |[(e & query & _ & -> & ->)
         |(query & reply & Hout & Hw & -> & ->)]]).
  - exists added, added, []. rewrite app_nil_r.
    split; [done|]. split; [done|]. split; [done|]. split; [|by left].
    destruct Hadded as [->|(query & reply & ->)]; simpl; lia.
  - exists [ {| turn_role := user; content := query |} ],
      [ {| turn_role := user; content := query |} ], [].
    split; [done|]. split; [done|]. split; [done|]. split; [simpl; lia|].
    by left.
  - exists [ {| turn_role := user; content := query |};
             {| turn_role := assistant; content := reply |} ],
      [ {| turn_role := user; content := query |} ],
      [ {| turn_role := assistant; content := reply |} ].
    split; [done|]. split; [done|]. split; [done|]. split; [simpl; lia|].
    right. eexists _, []. split; [done|]. split; [done|].
    by apply Hfail.
Qed.

Lemma chat_section_run (reset : bool) chat_input session l :
  messages_of
    (ensure_messages (if reset then reset_chat session else session))
  = inr l ->
  exists added displayed hidden,
    (page reset chat_input session).1.1.1
    = <[MESSAGES := Turns (l ++ added)]>
        (ensure_messages (if reset then reset_chat session else session))
    /\ l ++ added = displayed ++ hidden
    /\ (page reset chat_input session).1.1.2 = map bubble displayed
    /\ (length added <= 2)%nat
    /\ (Forall (fun message => has_surrogate (content message) = false) l ->
        exists extra, displayed = l ++ extra)
    /\ (hidden = []
        \/ exists message rest,
             hidden = message :: rest
             /\ has_surrogate (content message) = true
             /\ (page reset chat_input session).2
                = inl (Raise (UnicodeEncodeError (content message)))).
Proof.
  intros Hl. unfold chat_section. rewrite Hl.
  destruct (replay_cases l {| messages := l; screen := [] |})
    as (shown_l & hidden_l & Hsplit & Hstate & Hout).
  destruct (replay l {| messages := l; screen := [] |}) as [s1 [h|[]]]
    eqn:Hreplay; cbn [fst snd] in Hstate, Hout; subst s1;
    cbn [messages screen app] in *.
  - destruct Hout as [[_ [=]]|(message & rest & -> & Hw & [= ->])].
    exists [], shown_l, (message :: rest). rewrite app_nil_r.
    split; [done|]. split; [done|]. split; [done|]. split; [simpl; lia|].
    split.
    + intros Hclean. rewrite Hsplit in Hclean.
      apply Forall_app in Hclean as [_ Hclean].
      apply Forall_cons in Hclean as [Hclean _]. congruence.
    + right. by exists message, rest.
  - destruct Hout as [[-> _]|(message & rest & _ & _ & [=])].
    rewrite app_nil_r in Hsplit. subst shown_l.
    destruct (block_appends chat_input
                {| messages := l; screen := map bubble l |})
      as (added & displayed & hidden & Hadded & Hm & Hs & Hlen & Hhidden).
    destruct (block chat_input _) as [[s' sidebar] outcome].
    cbn [fst snd messages screen] in *.
    exists added, (l ++ displayed), hidden.
    rewrite Hm, Hs, map_app, Hadded, <- app_assoc.
    split; [done|]. split; [done|]. split; [done|].
    split; [by rewrite <- Hadded|]. split; [intros _; by eexists|done].
Qed.

(** X17: at the end of lines 101-162, however the run ends, the chat
    messages on the page are messages stored in the session, in the
    stored order and from the first one on.  All stored messages are on
    the page unless the run ended with the UnicodeEncodeError of the
    first message that is not: a stored message, or the answer just
    committed, with a lone surrogate. *)
Theorem page_shows_the_stored_conversation (reset : bool) chat_input session :
  (reset = false -> forall v, session !! MESSAGES <> Some (Other v)) ->
  exists displayed hidden,
    (page reset chat_input session).1.1.1 !! MESSAGES
    = Some (Turns (displayed ++ hidden))
    /\ (page reset chat_input session).1.1.2 = map bubble displayed
    /\ (hidden = []
        \/ exists message rest,
             hidden = message :: rest
             /\ has_surrogate (content message) = true
             /\ (page reset chat_input session).2
                = inl (Raise (UnicodeEncodeError (content message)))).
Proof.
  intros Hok.
  assert (exists l, messages_of
            (ensure_messages (if reset then reset_chat session else session))
            = inr l) as [l Hl].
  { destruct reset.
    - exists INITIAL_MESSAGE. rewrite reset_chat_eq. by vm_compute.
    - unfold ensure_messages, messages_of.
      destruct (session !! MESSAGES) as [[l|v]|] eqn:Hm.
      + rewrite Hm. by exists l.
      + by destruct (Hok eq_refl v).
      + rewrite lookup_insert_eq. by eexists. }
  destruct (chat_section_run reset chat_input session l Hl)
    as (added & displayed & hidden & Hs & Hsplit & Hp & _ & _ & Hhidden).
  exists displayed, hidden. rewrite Hs, Hp, <- Hsplit.
  split; [by rewrite lookup_insert_eq|]. split; [done|].
  destruct Hhidden as [->|(message & rest & -> & Hw & Hout)]; [by left|].
  right. by exists message, rest.
Qed.

(** X18: without a reset the stored conversation is kept: the run
    appends at most the question and the answer to it and leaves every
    other key of the session as it was. *)
Theorem conversation_survives_a_rerun chat_input session l :
  session !! MESSAGES = Some (Turns l) ->
  exists added,
    (page false chat_input session).1.1.1 !! MESSAGES
    = Some (Turns (l ++ added))
    /\ (length added <= 2)%nat
    /\ forall k, k <> MESSAGES ->
         (page false chat_input session).1.1.1 !! k = session !! k.
Proof.
  intros Hm.
  assert (ensure_messages session = session) as Hens
    by (unfold ensure_messages; by rewrite Hm).
  destruct (chat_section_run false chat_input session l)
    as (added & _ & _ & Hs & _ & _ & Hlen & _).
  { rewrite Hens. unfold messages_of. by rewrite Hm. }
  exists added. rewrite Hs, Hens. split; [by rewrite lookup_insert_eq|].
  split; [done|]. intros k Hk. by rewrite lookup_insert_ne.
Qed.

(** X19: with the reset button pressed the run does not depend on the
    earlier session: the conversation starts again from the greeting
    and the session holds "messages" and "history" only. *)
Theorem reset_forgets_the_earlier_session chat_input session session' :
  page true chat_input session = page true chat_input session'
  /\ exists added,
       (page true chat_input session).1.1.1
       = <[MESSAGES := Turns (INITIAL_MESSAGE ++ added)]>
           (<[HISTORY := Turns []]> ∅)
       /\ (length added <= 2)%nat.
Proof.
  split; [unfold chat_section; by rewrite !reset_chat_eq|].
  destruct (chat_section_run true chat_input session INITIAL_MESSAGE)
    as (added & _ & _ & Hs & _ & _ & Hlen & _).
  { rewrite reset_chat_eq. by vm_compute. }
  exists added. split; [|done]. rewrite Hs, reset_chat_eq.
  apply map_eq. intros k.
  destruct (decide (k = MESSAGES)) as [->|Hk].
  - by rewrite !lookup_insert_eq.
  - rewrite !lookup_insert_ne by done.
    unfold ensure_messages.
    rewrite lookup_insert_ne, lookup_insert_eq by done.
    destruct (decide (k = HISTORY)) as [->|Hk'].
    + by rewrite !lookup_insert_eq.
    + by rewrite !lookup_insert_ne.
Qed.

End MoreSection.

(** ** Further worked cases *)

Lemma normalisation_only_turns_newlines_into_spaces_witness :
  contains MARKER (of_string "Yes.") = false
  /\ replace (MARKER ++ [NL]) (MARKER ++ [SP])
       (replace (NL :: MARKER) (SP :: MARKER) (of_string "Yes."))
     = of_string "Yes.".
Proof.
  split; [by vm_compute|].
  destruct (normalisation_only_turns_newlines_into_spaces (of_string "Yes."))
    as (_ & _ & Hsame).
  apply Hsame. by vm_compute.
Defined.

Lemma citations_ignore_order_and_repeats_witness :
  (Forall2 (page_of inr) (sources Demo.four_pages) [3; 1; 3; 2]
   /\ Forall2 (page_of inr) (sources Demo2.three_pages) [1; 2; 3]
   /\ forall z, z ∈ [3; 1; 3; 2] <-> z ∈ [1; 2; 3])
  /\ exists pages,
       citation_pages inr Demo.four_pages = inr pages
       /\ citation_pages inr Demo2.three_pages = inr pages.
Proof.
  assert (Forall2 (page_of inr) (sources Demo.four_pages) [3; 1; 3; 2])
    as H1 by (repeat constructor; apply chunk_on_page_page).
  assert (Forall2 (page_of inr) (sources Demo2.three_pages) [1; 2; 3])
    as H2 by (repeat constructor; apply chunk_on_page_page).
  assert (forall z : Z, z ∈ [3; 1; 3; 2] <-> z ∈ [1; 2; 3]) as H3.
  { intros z. rewrite !elem_of_cons, !elem_of_nil. tauto. }
  split; [done|].
  exact (citations_ignore_order_and_repeats inr Demo.four_pages Demo2.three_pages
           [3; 1; 3; 2] [1; 2; 3] H1 H2 H3).
Defined.

Lemma citations_are_at_most_the_sources_witness :
  citation_pages inr Demo.four_pages = inr [1; 2; 3]
  /\ NoDup [1; 2; 3]
  /\ (length [1; 2; 3] <= length (sources Demo.four_pages))%nat
  /\ (([1; 2; 3] : list Z) = [] <-> sources Demo.four_pages = []).
Proof.
  assert (citation_pages inr Demo.four_pages = inr [1; 2; 3]) as H
    by (by vm_compute).
  split; [done|].
  exact (citations_are_at_most_the_sources inr Demo.four_pages [1; 2; 3] H).
Defined.

Lemma first_chunk_without_page_decides_the_error_witness :
  (sources Demo.broken = [Demo.chunk_on_page 3] ++ Demo.chunk_without_page :: []
   /\ Forall (fun source => exists z, page_of inr source z)
        [Demo.chunk_on_page 3]
   /\ metadata Demo.chunk_without_page !! of_string "page" = None)
  /\ citation_pages inr Demo.broken = inl (KeyError (of_string "page")).
Proof.
  assert (Forall (fun source => exists z : Z, page_of inr source z)
            [Demo.chunk_on_page 3]) as Hok.
  { constructor; [|constructor]. exists 3. apply chunk_on_page_page. }
  assert (metadata Demo.chunk_without_page !! of_string "page" = None)
    as Hnone by (by vm_compute).
  split; [done|].
  exact (proj1 (first_chunk_without_page_decides_the_error inr Demo.broken
                  [Demo.chunk_on_page 3] Demo.chunk_without_page []
                  eq_refl Hok) Hnone).
Defined.

Lemma answer_committed_iff_every_step_succeeds_witness :
  Demo.WHY <> []
  /\ ((Demo.ask (inr Demo2.garbled) Demo.start).2 = inr tt
      <-> exists reply,
            steps_succeed_with inr Demo.get_llm
              (Demo.query_folder (inr Demo2.garbled)) Demo.index Demo.GPT4
              Demo.KEY false Demo.WHY reply
            /\ has_surrogate reply = false).
Proof.
  split; [done|].
  exact (proj1 (proj2 (answer_committed_iff_every_step_succeeds inr
                         Demo.get_llm (Demo.query_folder (inr Demo2.garbled))
                         Demo.index Demo.GPT4 Demo.KEY false Demo.WHY
                         Demo.start ltac:(done)))).
Defined.

Lemma pipeline_when_every_file_is_read_witness :
  (Forall2 (fun u file => Demo.read_file u = inr file) [Demo.notes_txt]
     ([] ++ [Demo.notes_file])
   /\ rmap (fun file => Demo2.chunk_fails file 300 0) ([] ++ [Demo.notes_file])
      = inl (ConfigError (of_string "chunker")))
  /\ upload_pipeline Demo.read_file SpecModel.display_file_read_error
       Demo2.chunk_fails SpecModel.is_file_valid Demo.is_open_ai_key_valid
       Demo.embed_files [Demo.notes_txt] Demo.GPT4 Demo.KEY Demo.start
     = (Demo.start, inl (Raise (ConfigError (of_string "chunker")))).
Proof.
  assert (Forall2 (fun u file => Demo.read_file u = inr file)
            [Demo.notes_txt] ([] ++ [Demo.notes_file])) as Hread
    by (by repeat constructor).
  split; [done|].
  exact (proj1 (pipeline_when_every_file_is_read Demo.read_file
                  SpecModel.display_file_read_error Demo2.chunk_fails
                  SpecModel.is_file_valid Demo.is_open_ai_key_valid
                  Demo.embed_files [Demo.notes_txt] [] Demo.notes_file
                  Demo.GPT4 Demo.KEY Demo.start Hread)
           _ eq_refl).
Defined.

Lemma unread_upload_ends_in_name_error_witness :
  ([Demo.photo_png] <> []
   /\ Forall (fun u => exists e, Demo.read_file u = inl e) [Demo.photo_png]
   /\ forall e file_name s0,
        exists s1, Demo2.display_and_return e file_name s0 = (s1, inr tt))
  /\ exists s',
       upload_pipeline Demo.read_file Demo2.display_and_return
         Demo.chunk_file SpecModel.is_file_valid Demo.is_open_ai_key_valid
         Demo.embed_files [Demo.photo_png] Demo.GPT4 Demo.KEY Demo.start
       = (s', inl (Raise (NameError (of_string "file")))).
Proof.
  assert (Forall (fun u => exists e, Demo.read_file u = inl e)
            [Demo.photo_png]) as Hfail.
  { constructor; [|constructor]. by eexists. }
  assert (forall e file_name s0,
            exists s1, Demo2.display_and_return e file_name s0 = (s1, inr tt))
    as Hret by (intros; by eexists).
  split; [done|].
  exact (unread_upload_ends_in_name_error Demo.read_file
           Demo2.display_and_return Demo.chunk_file SpecModel.is_file_valid
           Demo.is_open_ai_key_valid Demo.embed_files [Demo.photo_png]
           Demo.GPT4 Demo.KEY Demo.start ltac:(done) Hfail Hret).
Defined.

Lemma index_needs_valid_last_file_and_key_witness :
  Demo.upload [Demo.scan_pdf; Demo.notes_txt] Demo.start
  = (Demo.start,
     inr ([ {| file_name := of_string "scan.pdf"; docs := [] |};
            Demo.notes_file ], EMBEDDING, VECTOR_STORE))
  /\ exists f,
       last (read_ok Demo.read_file [Demo.scan_pdf; Demo.notes_txt]) = Some f
       /\ SpecModel.is_file_valid f = true
       /\ Demo.is_open_ai_key_valid Demo.KEY Demo.GPT4 = true.
Proof.
  assert (Demo.upload [Demo.scan_pdf; Demo.notes_txt] Demo.start
          = (Demo.start,
             inr ([ {| file_name := of_string "scan.pdf"; docs := [] |};
                    Demo.notes_file ], EMBEDDING, VECTOR_STORE))) as Hrun
    by (by vm_compute).
  split; [done|].
  exact (index_needs_valid_last_file_and_key Demo.read_file
           SpecModel.display_file_read_error Demo.chunk_file
           SpecModel.is_file_valid Demo.is_open_ai_key_valid
           Demo.embed_files _ _ _ _ _ _ Hrun).
Defined.

Lemma index_is_built_from_every_upload_witness :
  Demo.upload [Demo.notes_txt] Demo.start
  = (Demo.start, inr ([Demo.notes_file], EMBEDDING, VECTOR_STORE))
  /\ exists files chunked,
       Forall2 (fun u file => Demo.read_file u = inr file)
         [Demo.notes_txt] files
       /\ Forall2 (fun file c => Demo.chunk_file file 300 0 = inr c)
            files chunked
       /\ Demo.embed_files chunked (kind_for EMBEDDING Demo.GPT4)
            (kind_for VECTOR_STORE Demo.GPT4) Demo.KEY
          = inr ([Demo.notes_file], EMBEDDING, VECTOR_STORE).
Proof.
  assert (Demo.upload [Demo.notes_txt] Demo.start
          = (Demo.start, inr ([Demo.notes_file], EMBEDDING, VECTOR_STORE)))
    as Hrun by (by vm_compute).
  split; [done|].
  exact (proj2 (index_is_built_from_every_upload Demo.read_file
                  Demo.chunk_file SpecModel.is_file_valid
                  Demo.is_open_ai_key_valid Demo.embed_files _ _ _ _ _ _
                  Hrun)).
Defined.

Lemma ensure_messages_keeps_what_is_there_witness :
  (∅ : gmap str session_value) !! MESSAGES = None
  /\ messages_of (ensure_messages ∅) = inr INITIAL_MESSAGE.
Proof.
  split; [done|].
  destruct (ensure_messages_keeps_what_is_there ∅) as (_ & _ & Hnew & _).
  by apply Hnew.
Defined.

Lemma page_shows_the_stored_conversation_witness :
  (false = false ->
   forall v, Demo2.old_session !! MESSAGES <> Some (Other v))
  /\ exists displayed hidden,
       (chat_section inr decimal Demo.get_llm
          (Demo.query_folder (inr Demo2.garbled))
          false Demo.index Demo.GPT4 Demo.KEY false (Some Demo.WHY)
          Demo2.old_session).1.1.1 !! MESSAGES
       = Some (Turns (displayed ++ hidden))
       /\ (chat_section inr decimal Demo.get_llm
             (Demo.query_folder (inr Demo2.garbled))
             false Demo.index Demo.GPT4 Demo.KEY false (Some Demo.WHY)
             Demo2.old_session).1.1.2 = map bubble displayed
       /\ (hidden = []
           \/ exists message rest,
                hidden = message :: rest
                /\ has_surrogate (content message) = true
                /\ (chat_section inr decimal Demo.get_llm
                      (Demo.query_folder (inr Demo2.garbled))
                      false Demo.index Demo.GPT4 Demo.KEY false
                      (Some Demo.WHY) Demo2.old_session).2
                   = inl (Raise (UnicodeEncodeError (content message)))).
Proof.
  assert (false = false ->
          forall v, Demo2.old_session !! MESSAGES <> Some (Other v)) as Hok.
  { intros _ v. by vm_compute. }
  split; [done|].
  exact (page_shows_the_stored_conversation inr decimal Demo.get_llm
           (Demo.query_folder (inr Demo2.garbled)) Demo.index Demo.GPT4
           Demo.KEY false false (Some Demo.WHY) Demo2.old_session Hok).
Defined.

Lemma conversation_survives_a_rerun_witness :
  Demo2.old_session !! MESSAGES
  = Some (Turns [ {| turn_role := assistant; content := of_string "Hi" |};
                  {| turn_role := user; content := of_string "Q" |} ])
  /\ exists added,
       (chat_section inr decimal Demo.get_llm
          (Demo.query_folder (inr Demo.four_pages))
          false Demo.index Demo.GPT4 Demo.KEY false (Some Demo.WHY)
          Demo2.old_session).1.1.1 !! MESSAGES
       = Some (Turns ([ {| turn_role := assistant; content := of_string "Hi" |};
                        {| turn_role := user; content := of_string "Q" |} ]
                      ++ added))
       /\ (length added <= 2)%nat
       /\ forall k, k <> MESSAGES ->
            (chat_section inr decimal Demo.get_llm
               (Demo.query_folder (inr Demo.four_pages))
               false Demo.index Demo.GPT4 Demo.KEY false (Some Demo.WHY)
               Demo2.old_session).1.1.1 !! k = Demo2.old_session !! k.
Proof.
  assert (Demo2.old_session !! MESSAGES
          = Some (Turns [ {| turn_role := assistant;
                             content := of_string "Hi" |};
                          {| turn_role := user; content := of_string "Q" |} ]))
    as Hm by (by vm_compute).
  split; [done|].
  exact (conversation_survives_a_rerun inr decimal Demo.get_llm
           (Demo.query_folder (inr Demo.four_pages)) Demo.index Demo.GPT4
           Demo.KEY false (Some Demo.WHY) Demo2.old_session _ Hm).
Defined.

Lemma sidebar_shows_three_items_per_source_witness :
  Forall2 (fun source v => metadata source !! SOURCE = Some v)
    [Demo2.labelled_chunk 2 20; Demo2.labelled_chunk 3 13] [20; 13]
  /\ sources_sidebar Demo2.label_text
       [Demo2.labelled_chunk 2 20; Demo2.labelled_chunk 3 13]
     = ([Markdown (of_string "text"); MarkdownValue 20; Markdown RULE;
         Markdown (of_string "text");
         EncodingError
           (UnicodeEncodeError (of_string "scan" ++ [Demo2.LONE]));
         Markdown RULE],
        inr tt).
Proof.
  assert (Forall2 (fun source v => metadata source !! SOURCE = Some v)
            [Demo2.labelled_chunk 2 20; Demo2.labelled_chunk 3 13] [20; 13])
    as H.
  { constructor; [by vm_compute|]. constructor; [by vm_compute|constructor]. }
  split; [done|].
  exact (proj1 (sidebar_shows_three_items_per_source Demo2.label_text
                  [Demo2.labelled_chunk 2 20; Demo2.labelled_chunk 3 13]
                  [20; 13] H)).
Defined.

Lemma sidebar_stops_at_the_first_unlabelled_source_witness :
  (Forall2 (fun source v => metadata source !! SOURCE = Some v)
     [Demo2.labelled_chunk 2 20] [20]
   /\ metadata (Demo.chunk_on_page 1) !! SOURCE = None)
  /\ sources_sidebar decimal (sources Demo2.labelled)
     = ([Markdown (of_string "text"); MarkdownValue 20; Markdown RULE;
         Markdown (of_string "text")],
        inl (KeyError SOURCE)).
Proof.
  assert (Forall2 (fun source v => metadata source !! SOURCE = Some v)
            [Demo2.labelled_chunk 2 20] [20]) as H.
  { constructor; [by vm_compute|constructor]. }
  assert (metadata (Demo.chunk_on_page 1) !! SOURCE = None) as Hbad
    by (by vm_compute).
  split; [done|].
  exact (sidebar_stops_at_the_first_unlabelled_source decimal
           [Demo2.labelled_chunk 2 20] [20] (Demo.chunk_on_page 1) [] H Hbad).
Defined.

Lemma sidebar_comes_after_the_answer_witness :
  (Demo.ask (inr Demo2.labelled) Demo.start).2 = inr tt
  /\ ((chat_input_block inr decimal Demo.get_llm
         (Demo.query_folder (inr Demo2.labelled)) Demo.index Demo.GPT4
         Demo.KEY false (Some Demo.WHY) Demo.start).2 = inr tt
      \/ (chat_input_block inr decimal Demo.get_llm
            (Demo.query_folder (inr Demo2.labelled)) Demo.index Demo.GPT4
            Demo.KEY false (Some Demo.WHY) Demo.start).2
         = inl (Raise (KeyError SOURCE))).
Proof.
  assert ((Demo.ask (inr Demo2.labelled) Demo.start).2 = inr tt) as Hrun
    by (by vm_compute).
  split; [done|].
  exact (proj2 (proj2 (sidebar_comes_after_the_answer inr decimal
                         Demo.get_llm
                         (Demo.query_folder (inr Demo2.labelled)) Demo.index
                         Demo.GPT4 Demo.KEY false (Some Demo.WHY)
                         Demo.start)) Hrun).
Defined.

Lemma utf8_ignore_drops_surrogates_only_witness :
  Forall (fun c => is_surrogate c = false) (of_string "text")
  /\ utf8_ignore (of_string "text") = of_string "text".
Proof.
  assert (Forall (fun c => is_surrogate c = false) (of_string "text")) as H
    by (by repeat constructor).
  split; [done|].
  exact (proj1 (proj2 (utf8_ignore_drops_surrogates_only (of_string "text")))
           H).
Defined.

(** An answer with a lone surrogate is committed to the history, but
    writing it raises: the page shows the question only. *)
Lemma garbled_answer_is_committed_but_not_shown :
  Demo.ask (inr Demo2.garbled) Demo.start
  = (committed_unshown Demo.WHY (of_string "No" ++ [Demo2.LONE]) Demo.start,
     inl (Raise (UnicodeEncodeError (of_string "No" ++ [Demo2.LONE])))).
Proof. by vm_compute. Qed.

(** A page number of 4301 digits has no numeral: line 138 raises
    ValueError, and only the question is committed. *)
Lemma huge_page_number_is_refused :
  Demo.ask (inr Demo2.huge_page) Demo.start
  = (asked Demo.WHY Demo.start, inl (Raise ValueError)).
Proof. by vm_compute. Qed.

(** On the next run the stored answer with the lone surrogate ends the
    replay: the messages before it are shown, the history is kept, and
    the question asked in that run is not handled. *)
Lemma stored_garbled_message_ends_the_replay :
  chat_section inr decimal Demo.get_llm
    (Demo.query_folder (inr Demo.four_pages)) false Demo.index Demo.GPT4
    Demo.KEY false (Some Demo.WHY) Demo2.garbled_session
  = (Demo2.garbled_session,
     [ChatMessage assistant (of_string "Hi")], [],
     inl (Raise (UnicodeEncodeError [Demo2.LONE]))).
Proof. by vm_compute. Qed.
